(** * News feed plugin: a shallow embedding of [news_feed_plugin.py]

    The development models the feed-fetch-and-cache component
    ([NewsFeedManager] and the plugin functions around it) and proves the
    properties its specification states about refresh, load, the queries and
    the text rendering.

    Layout:
    - [Py]: Python strings, dynamically typed values, exceptions and the few
      built-in operations the program applies to them;
    - [Json]: the [json] module as the program uses it, [json.dump] with
      [indent=2] and [json.load];
    - [Sys]: the outside world, a file store, the process environment, the
      HTTP endpoint and the console, with a state-and-exception monad;
    - [NewsFeed]: the program itself, function by function, up to [main];
    - [News]: the reply cleaning of [news.py];
    - [Model]: the vocabulary of the specification, Article, Article
      Collection, the text rendering, and the predicates of the theorems;
    - [Scenario]: the concrete worlds of the specification's scenarios;
    - the theorems: [JsonFacts], [JsonRoundTrip] and [JsonTotal] about the
      JSON layer, [Refresh], [Store], [Queries] and [Credential] about the
      program, [Scenarios] running them on the concrete worlds; then
      [RefreshMore], [QueriesMore], [Details], [CommandLine] and [Cleaning]
      on the behaviour at the edges, with [MoreScenarios].

    What the model abstracts: files hold text, not bytes, and the file
    store is flat, a path names a file, a directory or nothing; what the
    operating system adds to this (directories on the way, permissions,
    names, encodings, a full disk) is the [refusal] of the world, given and
    not computed.  [requests] and the network are the [endpoint] of the
    world; the model counts the calls of [requests.get], not what goes over
    the wire.  The recursion limit and the digit limit of the interpreter
    are parameters of the runtime, and bear on decoding only.  Console
    output is a list of lines whose exception messages come from the
    runtime. *)

From Stdlib Require Import NArith ZArith List Lia Bool String Ascii.
From stdpp Require Import base option list gmap.

Local Open Scope N_scope.
Set Warnings "-register-all".

(* ------------------------------------------------------------------ *)
(** * Python strings, values and exceptions *)
(* ------------------------------------------------------------------ *)

Module Py.

(** A Python [str] is a sequence of code points. *)
Definition str : Type := list N.

(** The string literals of the source, as code-point sequences. *)
Definition lit (s : string) : str :=
  List.map N_of_ascii (list_ascii_of_string s).

(** [sep.join(parts)] on a list of strings. *)
Fixpoint join (sep : str) (parts : list str) : str :=
  match parts with
  | [] => []
  | [p] => p
  | p :: rest => p ++ sep ++ join sep rest
  end.

(** [s.startswith(prefix)], returning what follows the prefix. *)
Fixpoint strip_prefix (prefix s : str) : option str :=
  match prefix, s with
  | [], _ => Some s
  | p :: prefix', c :: s' => if p =? c then strip_prefix prefix' s' else None
  | _ :: _, [] => None
  end.

(** ** Exceptions

    The exceptions the program can meet, each an instance of one class of
    the hierarchy below ([requests] classes included). *)
Inductive exn :=
  | KeyError (key : str)
  | TypeError
  | AttributeError
  | RuntimeError
  | RecursionError
  | ValueError
  | UnicodeDecodeError
  | JSONDecodeError
  | OSError
  | FileNotFoundError
  | IsADirectoryError
  | NotADirectoryError
  | PermissionError
  | ConnectionError
  | HTTPError (status : N)
  | InvalidHeader
  | RequestsJSONDecodeError.

Inductive cls :=
  | CBaseException | CException
  | CLookupError | CKeyError | CTypeError | CAttributeError
  | CRuntimeError | CRecursionError
  | CValueError | CUnicodeError | CUnicodeDecodeError | CJSONDecodeError
  | COSError | CFileNotFoundError | CIsADirectoryError
  | CNotADirectoryError | CPermissionError
  | CRequestException | CConnectionError | CHTTPError | CInvalidHeader
  | CInvalidJSONError | CRequestsJSONDecodeError.

Global Instance cls_eq_dec : EqDecision cls.
Proof. solve_decision. Defined.

Definition class_of (e : exn) : cls :=
  match e with
  | KeyError _ => CKeyError
  | TypeError => CTypeError
  | AttributeError => CAttributeError
  | RuntimeError => CRuntimeError
  | RecursionError => CRecursionError
  | ValueError => CValueError
  | UnicodeDecodeError => CUnicodeDecodeError
  | JSONDecodeError => CJSONDecodeError
  | OSError => COSError
  | FileNotFoundError => CFileNotFoundError
  | IsADirectoryError => CIsADirectoryError
  | NotADirectoryError => CNotADirectoryError
  | PermissionError => CPermissionError
  | ConnectionError => CConnectionError
  | HTTPError _ => CHTTPError
  | InvalidHeader => CInvalidHeader
  | RequestsJSONDecodeError => CRequestsJSONDecodeError
  end.

(** The direct base classes of each class. *)
Definition bases (c : cls) : list cls :=
  match c with
  | CBaseException => []
  | CException => [CBaseException]
  | CLookupError | CTypeError | CAttributeError | CRuntimeError
  | CValueError | COSError => [CException]
  | CKeyError => [CLookupError]
  | CRecursionError => [CRuntimeError]
  | CUnicodeError | CJSONDecodeError => [CValueError]
  | CUnicodeDecodeError => [CUnicodeError]
  | CFileNotFoundError | CIsADirectoryError
  | CNotADirectoryError | CPermissionError => [COSError]
  | CRequestException => [COSError]
  | CConnectionError | CHTTPError | CInvalidJSONError => [CRequestException]
  | CInvalidHeader => [CRequestException; CValueError]
  | CRequestsJSONDecodeError => [CInvalidJSONError; CJSONDecodeError]
  end.

(** [issubclass(c, target)]; the hierarchy is five levels deep. *)
Fixpoint issubclass_upto (depth : nat) (c target : cls) : bool :=
  bool_decide (c = target) ||
  match depth with
  | O => false
  | S depth' => existsb (fun b => issubclass_upto depth' b target) (bases c)
  end.

Definition issubclass : cls -> cls -> bool := issubclass_upto 5.

(** [isinstance(e, c)], the test an [except c] clause performs. *)
Definition isinstance (e : exn) (c : cls) : bool := issubclass (class_of e) c.

(** A computation on values either returns or raises. *)
Inductive res (A : Type) :=
  | Ok (a : A)
  | Raise (e : exn).
Global Arguments Ok {A} a.
Global Arguments Raise {A} e.

Definition res_bind {A B} (r : res A) (k : A -> res B) : res B :=
  match r with
  | Ok a => k a
  | Raise e => Raise e
  end.

(** Evaluate [f] on each element from left to right, stopping at the first
    raise: a list comprehension. *)
Fixpoint res_map {A B} (f : A -> res B) (l : list A) : res (list B) :=
  match l with
  | [] => Ok []
  | a :: l' =>
      res_bind (f a) (fun b =>
      res_bind (res_map f l') (fun bs => Ok (b :: bs)))
  end.

(** Floats are kept abstract: the program never computes with them, it only
    carries them from one JSON document to another.  The interpreter supplies
    the conversions, and the printable-character table behind [repr].

    It also sets two limits the decoder of [json] runs into.
    [recursion_limit] is the number of arrays and objects, one inside the
    other, the scanner can enter before the interpreter raises
    [RecursionError]; it depends on the interpreter, on
    [sys.setrecursionlimit] and on the depth of the call stack.
    [int_max_str_digits] is [sys.get_int_max_str_digits()], the longest run
    of digits [int] converts, [0] standing for no limit.

    The limit is taken as exact for nesting.  What building an exception
    costs is left out: in CPython 3.11 a decoding error found within three
    levels of the limit surfaces as [RecursionError], the interpreter
    having no room left to build the [JSONDecodeError], and the constants
    [NaN] and [Infinity] take a level of their own. *)
Inductive float_kind := FNan | FPosInf | FNegInf | FZero | FFinite.

Class Runtime := {
  pyfloat : Type;
  float_of_str : str -> pyfloat;      (* float(s) *)
  float_repr : pyfloat -> str;        (* float.__repr__ *)
  float_classify : pyfloat -> float_kind;
  str_repr : str -> str;              (* str.__repr__ *)
  exn_str : exn -> str;               (* str(e), the message of an exception *)
  recursion_limit : nat;
  int_max_str_digits : nat;
}.

Section Values.
Context {RT : Runtime}.

(** The values that travel through the program: what [json.load] and
    [response.json()] produce.  A dict keeps its insertion order; all keys
    are strings. *)
Inductive pyval :=
  | PNone
  | PBool (b : bool)
  | PInt (z : Z)
  | PFloat (f : pyfloat)
  | PStr (s : str)
  | PList (l : list pyval)
  | PDict (d : list (str * pyval)).

(** ** Dictionaries *)

Fixpoint dict_lookup (d : list (str * pyval)) (k : str) : option pyval :=
  match d with
  | [] => None
  | (k', v) :: d' => if decide (k' = k) then Some v else dict_lookup d' k
  end.

(** [d[k] = v]: an existing key keeps its position. *)
Fixpoint dict_set (d : list (str * pyval)) (k : str) (v : pyval)
  : list (str * pyval) :=
  match d with
  | [] => [(k, v)]
  | (k', v') :: d' =>
      if decide (k' = k) then (k', v) :: d' else (k', v') :: dict_set d' k v
  end.

(** [dict(pairs)] *)
Definition dict_of_pairs (pairs : list (str * pyval)) : list (str * pyval) :=
  fold_left (fun d kv => dict_set d (fst kv) (snd kv)) pairs [].

(** ** Built-in operations on values *)

(** [v[key]] for a string key. *)
Definition getitem (v : pyval) (key : str) : res pyval :=
  match v with
  | PDict d =>
      match dict_lookup d key with
      | Some x => Ok x
      | None => Raise (KeyError key)
      end
  | _ => Raise TypeError
  end.

(** [v.get(key, default)] *)
Definition get_default (v : pyval) (key : str) (default : pyval) : res pyval :=
  match v with
  | PDict d => Ok (from_option id default (dict_lookup d key))
  | _ => Raise AttributeError
  end.

(** [v.items()] *)
Definition items (v : pyval) : res (list (str * pyval)) :=
  match v with
  | PDict d => Ok d
  | _ => Raise AttributeError
  end.

(** [iter(v)], run to the end: a list gives its elements, a dict its keys,
    a string its characters. *)
Definition iterate (v : pyval) : res (list pyval) :=
  match v with
  | PList l => Ok l
  | PDict d => Ok (List.map (fun kv => PStr (fst kv)) d)
  | PStr s => Ok (List.map (fun c => PStr [c]) s)
  | _ => Raise TypeError
  end.

(** [len(v)] *)
Definition len (v : pyval) : res nat :=
  match v with
  | PList l => Ok (length l)
  | PDict d => Ok (length d)
  | PStr s => Ok (length s)
  | _ => Raise TypeError
  end.

(** [bool(v)] *)
Definition truthy (v : pyval) : bool :=
  match v with
  | PNone => false
  | PBool b => b
  | PInt z => negb (Z.eqb z 0)
  | PFloat f => match float_classify f with FZero => false | _ => true end
  | PStr s => negb (bool_decide (s = []))
  | PList l => match l with [] => false | _ => true end
  | PDict d => match d with [] => false | _ => true end
  end.

(** [v == s] for a string [s]: only an equal string compares equal. *)
Definition eq_str (v : pyval) (s : str) : bool :=
  match v with
  | PStr s' => bool_decide (s' = s)
  | _ => false
  end.

(** ** Decimal digits, [int.__repr__] *)

Fixpoint uint_digits (u : Decimal.uint) : str :=
  match u with
  | Decimal.Nil => []
  | Decimal.D0 u' => 48 :: uint_digits u'
  | Decimal.D1 u' => 49 :: uint_digits u'
  | Decimal.D2 u' => 50 :: uint_digits u'
  | Decimal.D3 u' => 51 :: uint_digits u'
  | Decimal.D4 u' => 52 :: uint_digits u'
  | Decimal.D5 u' => 53 :: uint_digits u'
  | Decimal.D6 u' => 54 :: uint_digits u'
  | Decimal.D7 u' => 55 :: uint_digits u'
  | Decimal.D8 u' => 56 :: uint_digits u'
  | Decimal.D9 u' => 57 :: uint_digits u'
  end.

Definition int_repr (z : Z) : str :=
  match z with
  | Z0 => [48]
  | Zpos p => uint_digits (Pos.to_uint p)
  | Zneg p => 45 :: uint_digits (Pos.to_uint p)
  end.

Definition nat_repr (n : nat) : str := int_repr (Z.of_nat n).

(** ** [str(v)] and [repr(v)], as [f"{v}"] formats a value *)

Fixpoint repr (v : pyval) : str :=
  match v with
  | PNone => lit "None"
  | PBool true => lit "True"
  | PBool false => lit "False"
  | PInt z => int_repr z
  | PFloat f => float_repr f
  | PStr s => str_repr s
  | PList l => lit "[" ++ join (lit ", ") (List.map repr l) ++ lit "]"
  | PDict d =>
      lit "{" ++
      join (lit ", ")
        (List.map (fun kv => str_repr (fst kv) ++ lit ": " ++ repr (snd kv)) d)
      ++ lit "}"
  end.

Definition to_str (v : pyval) : str :=
  match v with
  | PStr s => s
  | _ => repr v
  end.

End Values.
End Py.

(* ------------------------------------------------------------------ *)
(** * The [json] module *)
(* ------------------------------------------------------------------ *)

Module Json.
Import Py.

(** ** Encoding: [json.dumps(o, indent=2)]

    With the default [ensure_ascii=True] every character outside the
    printable ASCII range is written as an escape. *)

Definition hexdigit (d : N) : N := if d <? 10 then 48 + d else 87 + d.

(** ['{0:04x}'.format(n)] for [n < 0x10000] *)
Definition hex4 (n : N) : str :=
  [hexdigit (n / 4096 mod 16); hexdigit (n / 256 mod 16);
   hexdigit (n / 16 mod 16); hexdigit (n mod 16)].

Definition u_escape (n : N) : str := 92 :: 117 :: hex4 n.

(** The replacement of one character ([replace] in
    [py_encode_basestring_ascii], with [ESCAPE_DCT]). *)
Definition escape_char (c : N) : str :=
  if c =? 92 then [92; 92]
  else if c =? 34 then [92; 34]
  else if c =? 8 then [92; 98]
  else if c =? 12 then [92; 102]
  else if c =? 10 then [92; 110]
  else if c =? 13 then [92; 114]
  else if c =? 9 then [92; 116]
  else if (32 <=? c) && (c <=? 126) then [c]
  else if c <? 65536 then u_escape c
  else
    let n := c - 65536 in
    let s1 := N.lor 55296 (N.land (N.shiftr n 10) 1023) in
    let s2 := N.lor 56320 (N.land n 1023) in
    u_escape s1 ++ u_escape s2.

Definition encode_basestring_ascii (s : str) : str :=
  34 :: flat_map escape_char s ++ [34].

Section Encoder.
Context {RT : Runtime}.

(** [floatstr]: the three special values have their own spelling. *)
Definition floatstr (f : pyfloat) : str :=
  match float_classify f with
  | FNan => lit "NaN"
  | FPosInf => lit "Infinity"
  | FNegInf => lit "-Infinity"
  | _ => float_repr f
  end.

(** ['\n' + ' ' * (2 * level)] *)
Definition newline_indent (level : nat) : str :=
  10 :: repeat 32 (2 * level)%nat.

Definition item_separator (level : nat) : str := 44 :: newline_indent level.

(** [_iterencode], its chunks concatenated. *)
Fixpoint iterencode (level : nat) (o : pyval) : str :=
  match o with
  | PStr s => encode_basestring_ascii s
  | PNone => lit "null"
  | PBool true => lit "true"
  | PBool false => lit "false"
  | PInt z => int_repr z
  | PFloat f => floatstr f
  | PList [] => lit "[]"
  | PList l =>
      91 :: newline_indent (S level)
      ++ join (item_separator (S level)) (List.map (iterencode (S level)) l)
      ++ newline_indent level ++ [93]
  | PDict [] => lit "{}"
  | PDict d =>
      123 :: newline_indent (S level)
      ++ join (item_separator (S level))
           (List.map
              (fun kv =>
                 encode_basestring_ascii (fst kv) ++ lit ": "
                 ++ iterencode (S level) (snd kv)) d)
      ++ newline_indent level ++ [125]
  end.

Definition dumps (o : pyval) : str := iterencode 0 o.

End Encoder.

(** ** Decoding: [json.loads]

    The scanner works on the remaining input; an outcome is a value with the
    input that follows it, a decoding error ([JSONDecodeError]), another
    exception of the interpreter, or an exhausted budget of steps. *)

Inductive scan (A : Type) :=
  | Scanned (a : A) (rest : str)
  | Invalid
  | Failed (e : exn)
  | Exhausted.
Global Arguments Scanned {A} a rest.
Global Arguments Invalid {A}.
Global Arguments Failed {A} e.
Global Arguments Exhausted {A}.

Definition is_ws (c : N) : bool :=
  (c =? 32) || (c =? 9) || (c =? 10) || (c =? 13).

(** [WHITESPACE.match(s, end).end()] *)
Fixpoint skip_ws (s : str) : str :=
  match s with
  | c :: r => if is_ws c then skip_ws r else s
  | [] => []
  end.

Definition hexval (c : N) : option N :=
  if (48 <=? c) && (c <=? 57) then Some (c - 48)
  else if (97 <=? c) && (c <=? 102) then Some (c - 87)
  else if (65 <=? c) && (c <=? 70) then Some (c - 55)
  else None.

(** [_decode_uXXXX] on the four characters after the [u]. *)
Definition decode_hex4 (a b c d : N) : option N :=
  match hexval a, hexval b, hexval c, hexval d with
  | Some x, Some y, Some z, Some w => Some (((x * 16 + y) * 16 + z) * 16 + w)
  | _, _, _, _ => None
  end.

Definition is_high_surrogate (u : N) : bool := (55296 <=? u) && (u <=? 56319).
Definition is_low_surrogate (u : N) : bool := (56320 <=? u) && (u <=? 57343).

Definition join_surrogates (hi lo : N) : N :=
  65536 + N.lor (N.shiftl (hi - 55296) 10) (lo - 56320).

(** [BACKSLASH] *)
Definition backslash (e : N) : option N :=
  if e =? 34 then Some 34
  else if e =? 92 then Some 92
  else if e =? 47 then Some 47
  else if e =? 98 then Some 8
  else if e =? 102 then Some 12
  else if e =? 110 then Some 10
  else if e =? 114 then Some 13
  else if e =? 116 then Some 9
  else None.

(** [scanstring(s, end, strict=True)]: [s] is the input after the opening
    quote, [acc] the characters decoded so far, last first.  [None] is a
    decoding error. *)
Fixpoint scanstring (s : str) (acc : str) : option (str * str) :=
  match s with
  | [] => None
  | c :: r =>
      if c =? 34 then Some (rev acc, r)
      else if c =? 92 then
        match r with
        | [] => None
        | e :: r1 =>
            if e =? 117 then
              match r1 with
              | h1 :: h2 :: h3 :: h4 :: r2 =>
                  match decode_hex4 h1 h2 h3 h4 with
                  | None => None
                  | Some uni =>
                      if is_high_surrogate uni then
                        (* a low surrogate escape right behind it? *)
                        match r2 with
                        | b :: u :: r3 =>
                            if (b =? 92) && (u =? 117) then
                              match r3 with
                              | g1 :: g2 :: g3 :: g4 :: r4 =>
                                  match decode_hex4 g1 g2 g3 g4 with
                                  | None => None
                                  | Some uni2 =>
                                      if is_low_surrogate uni2
                                      then scanstring r4
                                             (join_surrogates uni uni2 :: acc)
                                      else scanstring r2 (uni :: acc)
                                  end
                              | _ => None
                              end
                            else scanstring r2 (uni :: acc)
                        | _ => scanstring r2 (uni :: acc)
                        end
                      else scanstring r2 (uni :: acc)
                  end
              | _ => None
              end
            else
              match backslash e with
              | Some ch => scanstring r1 (ch :: acc)
              | None => None
              end
        end
      else if c <? 32 then None
      else scanstring r (c :: acc)
  end.

(** ** Numbers: [NUMBER_RE] *)

Definition is_digit (c : N) : bool := (48 <=? c) && (c <=? 57).

(** The longest run of digits at the head of the input. *)
Fixpoint span_digits (s : str) : str * str :=
  match s with
  | c :: r =>
      if is_digit c then let '(ds, rest) := span_digits r in (c :: ds, rest)
      else ([], s)
  | [] => ([], [])
  end.

(** The integer part: a single [0], or a non-zero digit and more digits. *)
Definition match_int_digits (s : str) : option (str * str) :=
  match s with
  | c :: r =>
      if c =? 48 then Some ([48], r)
      else if is_digit c then
        let '(ds, rest) := span_digits r in Some (c :: ds, rest)
      else None
  | [] => None
  end.

(** The optional fraction: a dot and at least one digit. *)
Definition match_frac (s : str) : str * str :=
  match s with
  | c :: r =>
      if c =? 46 then
        match span_digits r with
        | ([], _) => ([], s)
        | (ds, rest) => (46 :: ds, rest)
        end
      else ([], s)
  | [] => ([], s)
  end.

(** The optional exponent: [e] or [E], an optional sign, at least one
    digit. *)
Definition match_exp (s : str) : str * str :=
  match s with
  | c :: r =>
      if (c =? 101) || (c =? 69) then
        match r with
        | sg :: r' =>
            if (sg =? 45) || (sg =? 43) then
              match span_digits r' with
              | ([], _) => ([], s)
              | (ds, rest) => (c :: sg :: ds, rest)
              end
            else
              match span_digits r with
              | ([], _) => ([], s)
              | (ds, rest) => (c :: ds, rest)
              end
        | [] => ([], s)
        end
      else ([], s)
  | [] => ([], s)
  end.

(** The three groups of a match of [NUMBER_RE], and the rest of the input. *)
Definition match_number (s : str) : option (str * str * str * str) :=
  let '(sign, s1) :=
    match s with
    | c :: r => if c =? 45 then ([45], r) else ([], s)
    | [] => ([], s)
    end in
  match match_int_digits s1 with
  | None => None
  | Some (ds, s2) =>
      let '(frac, s3) := match_frac s2 in
      let '(ex, s4) := match_exp s3 in
      Some (sign ++ ds, frac, ex, s4)
  end.

(** [int(digits)] for a run of decimal digits *)
Definition digits_value (ds : str) : N :=
  fold_left (fun acc c => acc * 10 + (c - 48)) ds 0.

Definition parse_int (integer : str) : Z :=
  match integer with
  | c :: ds => if c =? 45 then Z.opp (Z.of_N (digits_value ds))
               else Z.of_N (digits_value integer)
  | [] => 0%Z
  end.

(** The digits of an integer literal, its sign apart. *)
Definition count_digits (integer : str) : nat :=
  match integer with
  | c :: ds => if c =? 45 then length ds else length integer
  | [] => O
  end.

Section Decoder.
Context {RT : Runtime}.

(** [int(integer)] refuses a literal longer than the limit with
    [ValueError]. *)
Definition too_many_digits (integer : str) : bool :=
  negb (Nat.eqb int_max_str_digits 0)
  && Nat.ltb int_max_str_digits (count_digits integer).

(** [_scan_once], [JSONArray] and [JSONObject].  Each call and each turn of
    a loop takes one unit of [fuel]; [loads] below supplies enough for the
    whole input.  [depth] is the number of arrays and objects the scanner
    can still enter: entering one more is the interpreter's
    [RecursionError]. *)
Fixpoint scan_once (fuel depth : nat) (s : str) : scan pyval :=
  match fuel with
  | O => Exhausted
  | S fuel' =>
      match s with
      | [] => Invalid
      | c :: r =>
          if c =? 34 then
            match scanstring r [] with
            | Some (k, rest) => Scanned (PStr k) rest
            | None => Invalid
            end
          else if c =? 123 then
            match depth with
            | O => Failed RecursionError
            | S depth' =>
                (* JSONObject, up to its loop *)
                match skip_ws r with
                | q :: r1 =>
                    if q =? 125 then Scanned (PDict []) r1
                    else if q =? 34 then object_loop fuel' depth' r1 []
                    else Invalid
                | [] => Invalid
                end
            end
          else if c =? 91 then
            match depth with
            | O => Failed RecursionError
            | S depth' =>
                (* JSONArray, up to its loop *)
                match skip_ws r with
                | q :: r1 =>
                    if q =? 93 then Scanned (PList []) r1
                    else array_loop fuel' depth' (q :: r1) []
                | [] => array_loop fuel' depth' [] []
                end
            end
          else
            match strip_prefix (lit "null") s with
            | Some rest => Scanned PNone rest
            | None =>
            match strip_prefix (lit "true") s with
            | Some rest => Scanned (PBool true) rest
            | None =>
            match strip_prefix (lit "false") s with
            | Some rest => Scanned (PBool false) rest
            | None =>
            match match_number s with
            | Some (integer, frac, ex, rest) =>
                match frac, ex with
                | [], [] =>
                    if too_many_digits integer then Failed ValueError
                    else Scanned (PInt (parse_int integer)) rest
                | _, _ =>
                    Scanned (PFloat (float_of_str (integer ++ frac ++ ex))) rest
                end
            | None =>
            match strip_prefix (lit "NaN") s with
            | Some rest => Scanned (PFloat (float_of_str (lit "NaN"))) rest
            | None =>
            match strip_prefix (lit "Infinity") s with
            | Some rest => Scanned (PFloat (float_of_str (lit "Infinity"))) rest
            | None =>
            match strip_prefix (lit "-Infinity") s with
            | Some rest =>
                Scanned (PFloat (float_of_str (lit "-Infinity"))) rest
            | None => Invalid
            end end end end end end end
      end
  end

(** The loop of [JSONArray]: [s] is where the next element starts, [acc]
    the elements read so far, last first. *)
with array_loop (fuel depth : nat) (s : str) (acc : list pyval)
  : scan pyval :=
  match fuel with
  | O => Exhausted
  | S fuel' =>
      match scan_once fuel' depth s with
      | Scanned v rest =>
          match skip_ws rest with
          | q :: r1 =>
              if q =? 93 then Scanned (PList (rev (v :: acc))) r1
              else if q =? 44
              then array_loop fuel' depth (skip_ws r1) (v :: acc)
              else Invalid
          | [] => Invalid
          end
      | Invalid => Invalid
      | Failed e => Failed e
      | Exhausted => Exhausted
      end
  end

(** The loop of [JSONObject]: [s] is the input after the opening quote of
    the next key, [acc] the pairs read so far, last first. *)
with object_loop (fuel depth : nat) (s : str) (acc : list (str * pyval))
  : scan pyval :=
  match fuel with
  | O => Exhausted
  | S fuel' =>
      match scanstring s [] with
      | Some (key, rest) =>
          match skip_ws rest with
          | colon :: r1 =>
              if colon =? 58 then
                match scan_once fuel' depth (skip_ws r1) with
                | Scanned v rest' =>
                    match skip_ws rest' with
                    | q :: r2 =>
                        if q =? 125 then
                          Scanned (PDict (dict_of_pairs (rev ((key, v) :: acc)))) r2
                        else if q =? 44 then
                          match skip_ws r2 with
                          | q' :: r3 =>
                              if q' =? 34
                              then object_loop fuel' depth r3 ((key, v) :: acc)
                              else Invalid
                          | [] => Invalid
                          end
                        else Invalid
                    | [] => Invalid
                    end
                | Invalid => Invalid
                | Failed e => Failed e
                | Exhausted => Exhausted
                end
              else Invalid
          | [] => Invalid
          end
      | None => Invalid
      end
  end.

(** [JSONDecoder.decode] with [depth] levels of nesting at its disposal:
    one value, white space around it, nothing else.  Two units of fuel per
    character are never used up (lemma [fuel_enough]). *)
Definition decode (depth : nat) (s : str) : res pyval :=
  match scan_once (2 * length s + 2) depth (skip_ws s) with
  | Scanned v rest =>
      match skip_ws rest with
      | [] => Ok v
      | _ :: _ => Raise JSONDecodeError
      end
  | Invalid => Raise JSONDecodeError
  | Failed e => Raise e
  | Exhausted => Raise RecursionError
  end.

(** [json.loads(s)] *)
Definition loads (s : str) : res pyval := decode recursion_limit s.

End Decoder.
End Json.

(* ------------------------------------------------------------------ *)
(** * The outside world *)
(* ------------------------------------------------------------------ *)

Module Sys.
Import Py Json.

(** What a path of the file store names: a file with its text, or a
    directory, which is what [open] finds there. *)
Inductive node :=
  | File (content : str)
  | Directory.

(** What the program asks of the file system: to open a path and read its
    text, to open a path for writing, which creates or empties the file, and
    to write to the open file, up to its close. *)
Inductive access := Reading | Creating | Writing.

Global Instance access_eq_dec : EqDecision access.
Proof. solve_decision. Defined.

Record request := { url : str; headers : list (str * str) }.

Record response := { status_code : N; text : str }.

(** The state the program runs in.

    [refusal] holds the errors of the system the flat store does not show:
    for a path and an access, the exception [open], [read] or [write]
    raises there, if any.  A missing parent directory, a parent that is a
    file, a name that is empty or too long, a permission that is lacking, a
    full disk, bytes that are no text in the encoding of the locale are all
    refusals.

    [endpoint] is [requests] and the network behind it.  It answers the
    [n]-th call of a run as it pleases, by a response or by an exception,
    raised before anything is sent or after; [requests] consults the process
    environment (proxies, certificate bundles, netrc), so the endpoint is
    given it.  [calls] lists the calls of [requests.get] so far, in
    order. *)
Record world := {
  files : gmap str node;
  refusal : access -> str -> option exn;
  environ : gmap str str;
  endpoint : gmap str str -> nat -> request -> res response;
  calls : list request;
  console : list str;
}.

(** State-and-exception monad: the effects of a computation that raises
    stay in the world. *)
Definition M (A : Type) : Type := world -> res A * world.

Definition ret {A} (a : A) : M A := fun w => (Ok a, w).

Definition raise {A} (e : exn) : M A := fun w => (Raise e, w).

Definition bind {A B} (m : M A) (k : A -> M B) : M B :=
  fun w =>
    match m w with
    | (Ok a, w') => k a w'
    | (Raise e, w') => (Raise e, w')
    end.

Definition lift {A} (r : res A) : M A := fun w => (r, w).

(** [try: body except c1: h1 except c2: h2 ...]: the first clause whose
    class the exception is an instance of handles it. *)
Definition try_except {A} (body : M A) (handlers : list (cls * (exn -> M A)))
  : M A :=
  fun w =>
    match body w with
    | (Ok a, w') => (Ok a, w')
    | (Raise e, w') =>
        match List.find (fun h => isinstance e (fst h)) handlers with
        | Some h => snd h e w'
        | None => (Raise e, w')
        end
    end.

Declare Scope monad_scope.
Delimit Scope monad_scope with monad.
Notation "x <- m ;; k" := (bind m (fun x => k))
  (at level 20, m at level 99, k at level 200, only parsing) : monad_scope.
Notation "m ;; k" := (bind m (fun _ => k))
  (at level 100, k at level 200, only parsing, right associativity)
  : monad_scope.

(** [os.getenv(name)] *)
Definition getenv (name : str) : M (option str) :=
  fun w => (Ok (environ w !! name), w).

(** [print(line)] *)
Definition print (line : str) : M unit :=
  fun w =>
    (Ok tt, {| files := files w; refusal := refusal w; environ := environ w;
               endpoint := endpoint w; calls := calls w;
               console := console w ++ [line] |}).

Definition set_files (fs : gmap str node) (w : world) : world :=
  {| files := fs; refusal := refusal w; environ := environ w;
     endpoint := endpoint w; calls := calls w; console := console w |}.

(** [open(path, "r")] followed by [f.read()]: a directory is reported as
    such; otherwise the system can refuse; otherwise the text of the file is
    returned, and a path that names nothing is reported missing. *)
Definition read_file (path : str) : M str :=
  fun w =>
    match files w !! path, refusal w Reading path with
    | Some Directory, _ => (Raise IsADirectoryError, w)
    | _, Some e => (Raise e, w)
    | Some (File content), None => (Ok content, w)
    | None, None => (Raise FileNotFoundError, w)
    end.

(** [open(path, "w")]: unless the path is a directory or the system
    refuses, the file is created, or emptied. *)
Definition open_w (path : str) : M unit :=
  fun w =>
    match files w !! path, refusal w Creating path with
    | Some Directory, _ => (Raise IsADirectoryError, w)
    | _, Some e => (Raise e, w)
    | _, None => (Ok tt, set_files (<[path := File []]> (files w)) w)
    end.

(** [f.write(chunk)] on a file opened for writing, and its close: a write
    the system refuses leaves the file as [open] left it. *)
Definition write (path : str) (chunk : str) : M unit :=
  fun w =>
    match files w !! path, refusal w Writing path with
    | Some (File content), None =>
        (Ok tt, set_files (<[path := File (content ++ chunk)]> (files w)) w)
    | Some (File content), Some e => (Raise e, w)
    | _, _ => (Raise IsADirectoryError, w)
    end.

(** [requests.get(url, headers=headers)]: the call is recorded, and the
    endpoint decides what comes of it. *)
Definition requests_get (u : str) (hs : list (str * str)) : M response :=
  fun w =>
    (endpoint w (environ w) (length (calls w)) {| url := u; headers := hs |},
     {| files := files w; refusal := refusal w; environ := environ w;
        endpoint := endpoint w;
        calls := calls w ++ [{| url := u; headers := hs |}];
        console := console w |}).

(** [response.raise_for_status()] *)
Definition raise_for_status (r : response) : res unit :=
  if (400 <=? status_code r) && (status_code r <? 600)
  then Raise (HTTPError (status_code r))
  else Ok tt.

Section Decode.
Context {RT : Runtime}.

(** [response.json()] *)
Definition response_json (r : response) : res pyval :=
  match loads (text r) with
  | Raise JSONDecodeError => Raise RequestsJSONDecodeError
  | other => other
  end.

(** [json.dump(o, f, indent=2)] *)
Definition json_dump (o : pyval) (path : str) : M unit :=
  write path (dumps o).

(** [json.load(f)] *)
Definition json_load (path : str) : M pyval :=
  bind (read_file path) (fun content => lift (loads content)).

End Decode.
End Sys.

(* ------------------------------------------------------------------ *)
(** * The program: [news_feed_plugin.py] *)
(* ------------------------------------------------------------------ *)

Module NewsFeed.
Import Py Json Sys.
Local Open Scope monad_scope.

Section Program.
Context {RT : Runtime}.

(** The instance attributes of [NewsFeedManager]. *)
Record NewsFeedManager := {
  ha_token : str;
  sensors : list str;
  output_file : str;
}.

(** Class attribute. *)
Definition ha_url : str := lit "http://192.168.123.199:8123".

Definition _load_ha_token : M str :=
  ha_token <- getenv (lit "HA_TOKEN") ;;
  match ha_token with
  | None => raise RuntimeError
  | Some token => ret token
  end.

(** [NewsFeedManager.__init__] *)
Definition __init__ (sensors : list str) (output_file : str)
  : M NewsFeedManager :=
  token <- _load_ha_token ;;
  ret {| ha_token := token; sensors := sensors; output_file := output_file |}.

(** The dict built for one [item] of the comprehension in
    [update_news_data]. *)
Definition article_of_item (item : pyval) : res pyval :=
  res_bind (getitem item (lit "pubDate")) (fun published =>
  res_bind (getitem item (lit "title")) (fun title =>
  res_bind (get_default item (lit "description")
              (PStr (lit "No description"))) (fun description =>
  res_bind (getitem item (lit "link")) (fun link =>
  Ok (PDict [(lit "Published", published);
             (lit "Title", title);
             (lit "Description", description);
             (lit "Link", link)]))))).

(** [data["attributes"]["rss"]["channel"]["item"]] *)
Definition items_of_data (data : pyval) : res pyval :=
  res_bind (getitem data (lit "attributes")) (fun attributes =>
  res_bind (getitem attributes (lit "rss")) (fun rss =>
  res_bind (getitem rss (lit "channel")) (fun channel =>
  getitem channel (lit "item")))).

(** The first three statements of the loop body in [update_news_data]: the
    request, the status check and the decoded payload. *)
Definition fetch_data (self : NewsFeedManager) (sensor : str) : M pyval :=
  response <- requests_get
                (ha_url ++ lit "/api/states/" ++ sensor)
                [(lit "Authorization", lit "Bearer " ++ ha_token self)] ;;
  lift (raise_for_status response) ;;
  lift (response_json response).

(** The rest of the loop body: the list the comprehension builds from the
    payload. *)
Definition articles_of_data (data : pyval) : res (list pyval) :=
  res_bind (items_of_data data) (fun items =>
  res_bind (iterate items) (fun elements =>
  res_map article_of_item elements)).

(** The body of the loop over [self.sensors]: the articles one sensor
    contributes. *)
Definition fetch_sensor (self : NewsFeedManager) (sensor : str)
  : M (list pyval) :=
  data <- fetch_data self sensor ;;
  lift (articles_of_data data).

(** The loop itself, extending [articles] sensor by sensor. *)
Fixpoint fetch_all (self : NewsFeedManager) (todo : list str)
    (articles : list pyval) : M (list pyval) :=
  match todo with
  | [] => ret articles
  | sensor :: todo' =>
      new <- fetch_sensor self sensor ;;
      fetch_all self todo' (articles ++ new)
  end.

(** The [with open(self.output_file, "w")] block of [update_news_data]. *)
Definition save (self : NewsFeedManager) (articles : list pyval) : M unit :=
  open_w (output_file self) ;;
  json_dump (PList articles) (output_file self).

Definition update_news_data (self : NewsFeedManager) : M bool :=
  try_except
    (articles <- fetch_all self (sensors self) [] ;;
     save self articles ;;
     ret true)
    [(CException,
      fun e =>
        print (lit "Error updating news data: " ++ exn_str e) ;;
        ret false)].

Definition get_file_contents (self : NewsFeedManager) : M pyval :=
  try_except
    (json_load (output_file self))
    [(CFileNotFoundError,
      fun _ =>
        print (lit "File " ++ output_file self ++ lit " not found") ;;
        ret (PList []));
     (CJSONDecodeError,
      fun _ =>
        print (lit "Error decoding JSON from " ++ output_file self) ;;
        ret (PList []))].

Definition get_all_titles (self : NewsFeedManager) : M (list pyval) :=
  articles <- get_file_contents self ;;
  elements <- lift (iterate articles) ;;
  lift (res_map (fun article => getitem article (lit "Title")) elements).

(** The [for] loop of [get_article_info]. *)
Fixpoint first_with_title (elements : list pyval) (title : str)
  : res (option pyval) :=
  match elements with
  | [] => Ok None
  | article :: rest =>
      res_bind (getitem article (lit "Title")) (fun t =>
      if eq_str t title then Ok (Some article)
      else first_with_title rest title)
  end.

Definition get_article_info (self : NewsFeedManager) (title : str)
  : M (option pyval) :=
  articles <- get_file_contents self ;;
  elements <- lift (iterate articles) ;;
  lift (first_with_title elements title).

(** ** Plugin functions *)

Definition update_news (manager : NewsFeedManager) : M pyval :=
  success <- update_news_data manager ;;
  ret (PDict [(lit "operation", PStr (lit "update_news"));
              (lit "success", PBool success);
              (lit "message",
               PStr (if success then lit "News data updated successfully"
                     else lit "Failed to update news data"))]).

(** [sep.join(parts)]: every part must be a string. *)
Definition join_values (sep : str) (parts : list pyval) : res str :=
  res_bind
    (res_map (fun v => match v with PStr s => Ok s | _ => Raise TypeError end)
       parts)
    (fun strings => Ok (join sep strings)).

Definition list_titles (manager : NewsFeedManager) (output_mode : str)
  : M pyval :=
  titles <- get_all_titles manager ;;
  if decide (output_mode = lit "text") then
    joined <- lift (join_values [10] titles) ;;
    ret (PStr joined)
  else
    ret (PDict [(lit "operation", PStr (lit "list_titles"));
                (lit "titles", PList titles);
                (lit "total_count", PInt (Z.of_nat (length titles)));
                (lit "message",
                 PStr (lit "Found " ++ nat_repr (length titles)
                       ++ lit " articles"))]).

(** ["\n".join(f"{key}: {value}" for key, value in article.items())] *)
Definition render_article (article : pyval) : res str :=
  res_bind (items article) (fun pairs =>
  Ok (join [10]
        (List.map (fun kv => fst kv ++ lit ": " ++ to_str (snd kv)) pairs))).

Definition get_article_details (manager : NewsFeedManager) (title : str)
    (output_mode : str) : M pyval :=
  article_info <- get_article_info manager title ;;
  if decide (output_mode = lit "text") then
    match article_info with
    | None => ret (PStr [])
    | Some article =>
        if truthy article then
          rendered <- lift (render_article article) ;;
          ret (PStr rendered)
        else ret (PStr [])
    end
  else
    ret (PDict [(lit "operation", PStr (lit "get_article_details"));
                (lit "title", PStr title);
                (lit "article", from_option id PNone article_info);
                (lit "message",
                 PStr (if from_option truthy false article_info
                       then lit "Article found"
                       else lit "Article not found"))]).

Definition get_file_data (manager : NewsFeedManager) (output_mode : str)
  : M pyval :=
  file_contents <- get_file_contents manager ;;
  if decide (output_mode = lit "text") then
    if truthy file_contents then
      elements <- lift (iterate file_contents) ;;
      blocks <- lift (res_map render_article elements) ;;
      ret (PStr (join [10; 10] blocks))
    else ret (PStr [])
  else
    count <- lift (len file_contents) ;;
    ret (PDict [(lit "operation", PStr (lit "get_file_contents"));
                (lit "articles", file_contents);
                (lit "total_count", PInt (Z.of_nat count));
                (lit "message",
                 PStr (lit "File contains " ++ nat_repr count
                       ++ lit " articles"))]).

(** ** Command line

    What [parser.parse_args()] returns: [--title] is [None] when the flag is
    not given. *)
Record Namespace := {
  arg_sensors : list str;
  arg_output_file : str;
  arg_operation : str;
  arg_title : option str;
  arg_output : str;
}.

(** [main], from [args = parser.parse_args()] on. *)
Definition main (args : Namespace) : M unit :=
  manager <- __init__ (arg_sensors args) (arg_output_file args) ;;
  result <-
    (if decide (arg_operation args = lit "update_news") then
       update_news manager
     else if decide (arg_operation args = lit "list_titles") then
       list_titles manager (arg_output args)
     else if decide (arg_operation args = lit "get_article_details") then
       match arg_title args with
       | None | Some [] =>
           ret (PDict [(lit "error",
                        PStr (lit "Title parameter required for get_article_details"))])
       | Some title => get_article_details manager title (arg_output args)
       end
     else if decide (arg_operation args = lit "get_file_contents") then
       get_file_data manager (arg_output args)
     else
       ret (PDict [(lit "error", PStr (lit "Invalid operation"))])) ;;
  match result with
  | PStr s => print s
  | _ => print (dumps result)
  end.

End Program.
End NewsFeed.

(* ------------------------------------------------------------------ *)
(** * The assistant wrapper: [news.py] *)
(* ------------------------------------------------------------------ *)

Module News.
Import Py.

(** [str.isspace] on one character. *)
Definition is_space (c : N) : bool :=
  ((9 <=? c) && (c <=? 13)) || ((28 <=? c) && (c <=? 32))
  || (c =? 133) || (c =? 160) || (c =? 5760)
  || ((8192 <=? c) && (c <=? 8202))
  || (c =? 8232) || (c =? 8233) || (c =? 8239) || (c =? 8287)
  || (c =? 12288).

(** [s.lstrip()] *)
Fixpoint lstrip (s : str) : str :=
  match s with
  | c :: r => if is_space c then lstrip r else s
  | [] => []
  end.

(** [s.rstrip()] *)
Definition rstrip (s : str) : str := rev (lstrip (rev s)).

(** [s.strip()] *)
Definition strip (s : str) : str := rstrip (lstrip s).

Definition is_ascii_letter (c : N) : bool :=
  ((97 <=? c) && (c <=? 122)) || ((65 <=? c) && (c <=? 90)).

Fixpoint skip_letters (s : str) : str :=
  match s with
  | c :: r => if is_ascii_letter c then skip_letters r else s
  | [] => []
  end.

(** The first substitution of [_clean_ai_response]: three backquotes at the
    start, the letters behind them and one newline are removed. *)
Definition drop_opening_fence (s : str) : str :=
  match strip_prefix (lit "```") s with
  | Some r =>
      match skip_letters r with
      | c :: r' => if c =? 10 then r' else c :: r'
      | [] => []
      end
  | None => s
  end.

(** The second substitution, on a string without trailing white space:
    three backquotes at the end, and one newline before them, are
    removed. *)
Definition drop_closing_fence (s : str) : str :=
  match strip_prefix (lit "```") (rev s) with
  | Some r =>
      match r with
      | c :: r' => if c =? 10 then rev r' else rev r
      | [] => []
      end
  | None => s
  end.

Definition _clean_ai_response (ai_response : str) : str :=
  let cleaned := drop_opening_fence (strip ai_response) in
  drop_closing_fence (strip cleaned).

(** The cleaned text is computed and left aside. *)
Definition process_ai_response (ai_response : str) : str :=
  let clean_response := _clean_ai_response ai_response in
  let response_text := ai_response in
  response_text.

End News.


(* ------------------------------------------------------------------ *)
(** * The vocabulary of the specification *)
(* ------------------------------------------------------------------ *)

Module Model.
Import Py Json Sys NewsFeed.

(** ** Strings the JSON escapes can carry *)

(** A Unicode scalar value: a code point that is not a surrogate. *)
Definition is_scalar (c : N) : bool :=
  (c <? 1114112) && negb ((55296 <=? c) && (c <=? 57343)).

(** Unicode text: what decoding UTF-8 yields. *)
Definition unicode_text (s : str) : bool := forallb is_scalar s.

(** Code points, with no high surrogate directly before a low one. *)
Fixpoint escapable (s : str) : bool :=
  match s with
  | [] => true
  | c :: s' =>
      (c <? 1114112)
      && negb (is_high_surrogate c
               && match s' with d :: _ => is_low_surrogate d | [] => false end)
      && escapable s'
  end.

(** What [scanstring] does after a high surrogate escape, with [r2] the
    input behind it. *)
Definition after_high (uni : N) (r2 acc : str) : option (str * str) :=
  match r2 with
  | b :: u :: r3 =>
      if (b =? 92) && (u =? 117) then
        match r3 with
        | g1 :: g2 :: g3 :: g4 :: r4 =>
            match decode_hex4 g1 g2 g3 g4 with
            | None => None
            | Some uni2 =>
                if is_low_surrogate uni2
                then scanstring r4 (join_surrogates uni uni2 :: acc)
                else scanstring r2 (uni :: acc)
            end
        | _ => None
        end
      else scanstring r2 (uni :: acc)
  | _ => scanstring r2 (uni :: acc)
  end.

Section Model.
Context {RT : Runtime}.

(** ** The data model: Article and Article Collection *)

Record Article := {
  published : str;
  title : str;
  description : str;
  link : str;
}.

(** An Article as the program holds it: a dict with the four keys in this
    order. *)
Definition article_value (a : Article) : pyval :=
  PDict [(lit "Published", PStr (published a));
         (lit "Title", PStr (title a));
         (lit "Description", PStr (description a));
         (lit "Link", PStr (link a))].

Definition collection_value (articles : list Article) : pyval :=
  PList (List.map article_value articles).

(** A valid Article: its four fields are Unicode text. *)
Definition valid_article (a : Article) : bool :=
  unicode_text (published a) && unicode_text (title a)
  && unicode_text (description a) && unicode_text (link a).

Definition escapable_article (a : Article) : Prop :=
  escapable (published a) = true /\ escapable (title a) = true /\
  escapable (description a) = true /\ escapable (link a) = true.

(** A member of an encoded object whose value is a string. *)
Definition member (level : nat) (kv : str * str) : str :=
  encode_basestring_ascii kv.1 ++ lit ": "
  ++ iterencode level (PStr kv.2).

Definition string_pair (kv : str * str) : str * pyval := (kv.1, PStr kv.2).

Definition escapable_pair (kv : str * str) : Prop :=
  escapable kv.1 = true /\ escapable kv.2 = true.

(** ** Refresh *)

(** The sources of [todo] are fetched one after the other from [w], every
    fetch succeeds, and [news] lists what each contributes. *)
Inductive fetches (self : NewsFeedManager)
  : list str -> world -> list (list pyval) -> world -> Prop :=
  | fetches_nil w : fetches self [] w [] w
  | fetches_cons sensor todo w new w1 news w2 :
      fetch_sensor self sensor w = (Ok new, w1) ->
      fetches self todo w1 news w2 ->
      fetches self (sensor :: todo) w (new :: news) w2.

(** The payloads the sources of [todo] answer with, one after the other. *)
Inductive payloads (self : NewsFeedManager)
  : list str -> world -> list pyval -> world -> Prop :=
  | payloads_nil w : payloads self [] w [] w
  | payloads_cons sensor todo w data w1 datas w2 :
      fetch_data self sensor w = (Ok data, w1) ->
      payloads self todo w1 datas w2 ->
      payloads self (sensor :: todo) w (data :: datas) w2.

(** The Article an item is mapped to, in the words of the specification:
    the three required fields, and the description or its sentinel. *)
Definition article_of (item article : pyval) : Prop :=
  exists fields pubDate title link,
    item = PDict fields /\
    dict_lookup fields (lit "pubDate") = Some pubDate /\
    dict_lookup fields (lit "title") = Some title /\
    dict_lookup fields (lit "link") = Some link /\
    article =
      PDict [(lit "Published", pubDate);
             (lit "Title", title);
             (lit "Description",
              match dict_lookup fields (lit "description") with
              | Some description => description
              | None => PStr (lit "No description")
              end);
             (lit "Link", link)].

(** Construction followed by refresh, as a caller of the class runs it. *)
Definition construct_and_refresh (sensors : list str) (output_file : str)
  : M bool :=
  bind (__init__ sensors output_file) update_news_data.

(** The same world with another process environment. *)
Definition with_environ (env : gmap str str) (w : world) : world :=
  {| files := files w; refusal := refusal w; environ := env;
     endpoint := endpoint w; calls := calls w; console := console w |}.

(** The endpoint of [w] answers alike under the two environments. *)
Definition answers_alike (w : world) (env1 env2 : gmap str str) : Prop :=
  forall n r, endpoint w env1 n r = endpoint w env2 n r.

(** ** Frames *)

(** Two worlds that differ at most in the calls made. *)
Definition same_but_calls (w w' : world) : Prop :=
  files w' = files w /\ refusal w' = refusal w /\ environ w' = environ w /\
  endpoint w' = endpoint w /\ console w' = console w.

(** The call a refresh makes for one sensor. *)
Definition request_for (self : NewsFeedManager) (sensor : str) : request :=
  {| url := ha_url ++ lit "/api/states/" ++ sensor;
     headers := [(lit "Authorization", lit "Bearer " ++ ha_token self)] |}.

(** The file store lets [path] be written: it is no directory, and the
    system refuses neither to open it for writing nor to write. *)
Definition writable (w : world) (path : str) : bool :=
  match files w !! path, refusal w Creating path, refusal w Writing path with
  | Some Directory, _, _ => false
  | _, None, None => true
  | _, _, _ => false
  end.

(** The lines [get_file_contents] prints. *)
Definition not_found_line (self : NewsFeedManager) : str :=
  lit "File " ++ output_file self ++ lit " not found".

Definition decode_error_line (self : NewsFeedManager) : str :=
  lit "Error decoding JSON from " ++ output_file self.

(** A computation that looks at the process environment through the
    endpoint at most: where the endpoint answers alike, it runs alike. *)
Definition env_blind {A} (m : M A) : Prop :=
  forall env w,
    answers_alike w env (environ w) ->
    m (with_environ env w) = (fst (m w), with_environ env (snd (m w))) /\
    endpoint (snd (m w)) = endpoint w /\ environ (snd (m w)) = environ w.

(** ** Queries *)

(** The element is an object with a [Title] key. *)
Definition has_title (article : pyval) : Prop :=
  exists t, getitem article (lit "Title") = Ok t.

(** The element's title is the string [t]. *)
Definition title_is (t : str) (article : pyval) : Prop :=
  getitem article (lit "Title") = Ok (PStr t).

(** ** Items and stored elements *)

(** An item the comprehension can map: an object with the three required
    keys. *)
Definition complete_item (item : pyval) : Prop :=
  exists fields,
    item = PDict fields /\
    is_Some (dict_lookup fields (lit "pubDate")) /\
    is_Some (dict_lookup fields (lit "title")) /\
    is_Some (dict_lookup fields (lit "link")).

(** A computation that leaves files, environment and network as they are,
    and calls no one: it can only print. *)
Definition read_only {A} (m : M A) : Prop :=
  forall w,
    files (snd (m w)) = files w /\ calls (snd (m w)) = calls w /\
    environ (snd (m w)) = environ w /\ endpoint (snd (m w)) = endpoint w.

(** What [get_all_titles] can make a list of titles from: a list whose
    elements are objects with a [Title] key, an empty object, an empty
    string. *)
Definition listable (v : pyval) : Prop :=
  match v with
  | PList elements => Forall has_title elements
  | PDict [] | PStr [] => True
  | _ => False
  end.

(** A stored element whose [Title] is not a string. *)
Definition title_not_text (article : pyval) : Prop :=
  exists t, getitem article (lit "Title") = Ok t /\ forall s, t <> PStr s.

(** The first Article of a collection with the title [t]. *)
Definition first_titled (t : str) (articles : list Article) : option Article :=
  List.find (fun a => bool_decide (title a = t)) articles.

(** ** Text rendering, in the words of the specification *)

(** One Article: its four [field: value] lines, in the order Published,
    Title, Description, Link. *)
Definition text_block (a : Article) : str :=
  lit "Published: " ++ published a ++ [10]
  ++ lit "Title: " ++ title a ++ [10]
  ++ lit "Description: " ++ description a ++ [10]
  ++ lit "Link: " ++ link a.

(** Several Articles: the end of a block, one empty line, the next block. *)
Fixpoint text_dump (articles : list Article) : str :=
  match articles with
  | [] => []
  | [a] => text_block a
  | a :: rest => text_block a ++ [10] ++ [10] ++ text_dump rest
  end.

End Model.
End Model.

(* ------------------------------------------------------------------ *)
(** * The scenarios of the specification *)
(* ------------------------------------------------------------------ *)

Module Scenario.
Import Py Json Sys NewsFeed Model.

(** A runtime without floats to speak of: enough to run the scenarios. *)
Definition plain_runtime : Runtime :=
  {| pyfloat := str;
     float_of_str := fun s => s;
     float_repr := fun f => f;
     float_classify := fun _ => FFinite;
     str_repr := fun s => [39] ++ s ++ [39];
     exn_str := fun _ => lit "error";
     recursion_limit := 1000;
     int_max_str_digits := 4300 |}.
#[export] Existing Instance plain_runtime.

(** Single quotes stand for double quotes in the documents below. *)
Definition json_text (s : string) : str :=
  List.map (fun c => if c =? 39 then 34 else c) (lit s).

Definition toronto : str := lit "sensor.global_news_toronto_rest".
Definition main_feed : str := lit "sensor.global_news_main_rest".
Definition news_json : str := lit "./news.json".

Definition toronto_body : str :=
  json_text "{'attributes': {'rss': {'channel': {'item': [{'pubDate': 'Mon, 01 Jan 2024', 'title': 'A', 'link': 'http://x'}]}}}}".

Definition main_body : str :=
  json_text "{'attributes': {'rss': {'channel': {'item': [{'pubDate': 'Tue, 02 Jan 2024', 'title': 'B', 'description': 'd', 'link': 'http://y'}]}}}}".

Definition authorized (r : request) : bool :=
  bool_decide (headers r = [(lit "Authorization", lit "Bearer secret")]).

(** Both sources answer, to a request that carries the right token. *)
Definition both_up (n : nat) (r : request) : res response :=
  if negb (authorized r) then Ok {| status_code := 401; text := [] |}
  else if bool_decide (url r = ha_url ++ lit "/api/states/" ++ toronto)
  then Ok {| status_code := 200; text := toronto_body |}
  else if bool_decide (url r = ha_url ++ lit "/api/states/" ++ main_feed)
  then Ok {| status_code := 200; text := main_body |}
  else Ok {| status_code := 404; text := [] |}.

(** The second source answers with HTTP 500. *)
Definition main_down (n : nat) (r : request) : res response :=
  if bool_decide (url r = ha_url ++ lit "/api/states/" ++ main_feed)
  then Ok {| status_code := 500; text := [] |}
  else both_up n r.

Definition manager : NewsFeedManager :=
  {| ha_token := lit "secret"; sensors := [toronto; main_feed];
     output_file := news_json |}.

(** A world with no store file, a system that refuses nothing and an
    endpoint that pays no attention to the environment. *)
Definition fresh (net : nat -> request -> res response) : world :=
  {| files := ∅; refusal := fun _ _ => None;
     environ := {[ lit "HA_TOKEN" := lit "secret" ]};
     endpoint := fun _ => net; calls := []; console := [] |}.

Definition with_file (content : str) (w : world) : world :=
  set_files (<[news_json := File content]> (files w)) w.

Definition article_a : Article :=
  {| published := lit "Mon, 01 Jan 2024"; title := lit "A";
     description := lit "No description"; link := lit "http://x" |}.

Definition article_b : Article :=
  {| published := lit "Tue, 02 Jan 2024"; title := lit "B";
     description := lit "d"; link := lit "http://y" |}.

(** A second Article with the title of the first. *)
Definition article_a' : Article :=
  {| published := lit "Wed, 03 Jan 2024"; title := lit "A";
     description := lit "again"; link := lit "http://z" |}.

(** The world after a successful refresh. *)
Definition refreshed : world := snd (update_news_data manager (fresh both_up)).

(** A store holding three Articles, two of them titled [A]. *)
Definition stocked : world :=
  with_file (dumps (collection_value [article_b; article_a; article_a']))
    (fresh both_up).

(** A world where the path of the store names a directory. *)
Definition blocked (net : nat -> request -> res response) : world :=
  set_files (<[news_json := Directory]> (files (fresh net))) (fresh net).

(** A manager with a third source behind the two. *)
Definition three_sources : NewsFeedManager :=
  {| ha_token := lit "secret"; sensors := [toronto; main_feed; toronto];
     output_file := news_json |}.

(** A manager without sources. *)
Definition idle_manager : NewsFeedManager :=
  {| ha_token := lit "secret"; sensors := []; output_file := news_json |}.

(** A store whose first element has a number for a title. *)
Definition numbered : world :=
  with_file (json_text "[{'Title': 5}, {'Title': 'x'}]") (fresh both_up).

(** A store that holds [null]. *)
Definition nulled : world := with_file (lit "null") (fresh both_up).

(** A payload whose [item] is one object, not a list of objects. *)
Definition single_item_payload : pyval :=
  PDict [(lit "attributes",
          PDict [(lit "rss",
                  PDict [(lit "channel",
                          PDict [(lit "item",
                                  PDict [(lit "pubDate", PStr (lit "Mon"));
                                         (lit "title", PStr (lit "A"));
                                         (lit "link", PStr (lit "http://x"))])])])])].

(** Command lines. *)
Definition command (operation : string) (title : option str) (mode : string)
  : Namespace :=
  {| arg_sensors := [toronto; main_feed]; arg_output_file := news_json;
     arg_operation := lit operation; arg_title := title;
     arg_output := lit mode |}.

(** A world without [HA_TOKEN]. *)
Definition tokenless : world := with_environ ∅ (fresh both_up).

(** The same world with a system that refuses one access to the store
    file. *)
Definition refusing (a : access) (e : exn) (w : world) : world :=
  {| files := files w;
     refusal := fun a' path =>
       if bool_decide (a' = a) && bool_decide (path = news_json)
       then Some e else refusal w a' path;
     environ := environ w; endpoint := endpoint w; calls := calls w;
     console := console w |}.

(** One opening bracket more than the interpreter has room for, and
    nothing else; then the same with the brackets closed. *)
Definition deep_text : str := repeat 91 1001.

Definition deep_document : str := repeat 91 1001 ++ repeat 93 1001.

(** The store after the two Articles of the specification are saved. *)
Definition saved : world :=
  snd (save manager (List.map article_value [article_a; article_b])
         (fresh both_up)).

(** A store that holds an empty object. *)
Definition empty_object : world := with_file (lit "{}") (fresh both_up).

(** A network that is reached directly and not through a proxy: with
    [http_proxy] set, [requests] fails to connect. *)
Definition behind_proxy (env : gmap str str) (n : nat) (r : request)
  : res response :=
  match env !! lit "http_proxy" with
  | Some _ => Raise ConnectionError
  | None => both_up n r
  end.

Definition proxied : world :=
  {| files := ∅; refusal := fun _ _ => None;
     environ := {[ lit "HA_TOKEN" := lit "secret" ]};
     endpoint := behind_proxy; calls := []; console := [] |}.

End Scenario.

(* ------------------------------------------------------------------ *)
(** * Theorems *)
(* ------------------------------------------------------------------ *)

Module JsonFacts.
Import Py Json Model.

(** Case analysis on the boolean comparisons of a goal. *)
Ltac cmp :=
  repeat match goal with
    | |- context [N.leb ?a ?b] => destruct (N.leb_spec a b)
    | |- context [N.ltb ?a ?b] => destruct (N.ltb_spec a b)
    | |- context [N.eqb ?a ?b] => destruct (N.eqb_spec a b)
    end;
  simpl; try reflexivity; try lia; try congruence.

Lemma hexval_hexdigit (d : N) : d < 16 -> hexval (hexdigit d) = Some d.
Proof.
  intros Hd. unfold hexval, hexdigit.
  cmp; f_equal; lia.
Qed.

Lemma hex4_digits (n : N) :
  n < 65536 ->
  ((n / 4096 mod 16 * 16 + n / 256 mod 16) * 16 + n / 16 mod 16) * 16
  + n mod 16 = n.
Proof.
  intros Hn.
  assert (E1 : n / 256 = n / 16 / 16) by (by rewrite N.Div0.div_div).
  assert (E2 : n / 4096 = n / 16 / 16 / 16) by (by rewrite !N.Div0.div_div).
  rewrite E1, E2.
  pose proof (N.div_mod n 16 ltac:(lia)).
  pose proof (N.div_mod (n / 16) 16 ltac:(lia)).
  pose proof (N.div_mod (n / 16 / 16) 16 ltac:(lia)).
  assert (n / 16 / 16 / 16 < 16).
  { rewrite <- E2. apply N.Div0.div_lt_upper_bound. lia. }
  rewrite (N.mod_small (n / 16 / 16 / 16) 16) by lia.
  lia.
Qed.

Lemma decode_hex4_hex4 (n : N) :
  n < 65536 ->
  decode_hex4 (hexdigit (n / 4096 mod 16)) (hexdigit (n / 256 mod 16))
    (hexdigit (n / 16 mod 16)) (hexdigit (n mod 16)) = Some n.
Proof.
  intros Hn. unfold decode_hex4.
  rewrite !hexval_hexdigit by (apply N.mod_lt; lia).
  f_equal. by apply hex4_digits.
Qed.

(** On disjoint bit ranges [lor] is addition. *)
Lemma lor_high_low (a b : N) (k : N) :
  b < 2 ^ k -> N.lor (a * 2 ^ k) b = a * 2 ^ k + b.
Proof.
  intros Hb.
  assert (Hz : N.land (a * 2 ^ k) b = 0).
  { destruct (N.eq_dec b 0) as [-> | Hb0]; [apply N.land_0_r|].
    apply N.bits_inj. intros i. rewrite N.land_spec, N.bits_0.
    destruct (N.lt_ge_cases i k) as [Hi | Hi].
    - by rewrite N.mul_pow2_bits_low.
    - rewrite (N.bits_above_log2 b i), andb_false_r; [done|].
      apply N.log2_lt_pow2 in Hb; lia. }
  rewrite N.add_nocarry_lxor by done.
  symmetry. by apply N.lxor_lor.
Qed.

Lemma high_surrogate_of (c : N) :
  65536 <= c < 1114112 ->
  N.lor 55296 (N.land (N.shiftr (c - 65536) 10) 1023)
  = 55296 + (c - 65536) / 1024.
Proof.
  intros Hc.
  rewrite N.shiftr_div_pow2. change (2 ^ 10) with 1024.
  assert ((c - 65536) / 1024 < 1024)
    by (apply N.Div0.div_lt_upper_bound; lia).
  change 1023 with (N.ones 10). rewrite N.land_ones.
  change (2 ^ 10) with 1024. rewrite N.mod_small by done.
  change 55296 with (54 * 2 ^ 10). by apply lor_high_low.
Qed.

Lemma low_surrogate_of (c : N) :
  N.lor 56320 (N.land (c - 65536) 1023) = 56320 + (c - 65536) mod 1024.
Proof.
  change 1023 with (N.ones 10). rewrite N.land_ones.
  change 56320 with (55 * 2 ^ 10). apply lor_high_low.
  apply N.mod_lt. done.
Qed.

Lemma join_surrogates_of (c : N) :
  65536 <= c < 1114112 ->
  join_surrogates (55296 + (c - 65536) / 1024) (56320 + (c - 65536) mod 1024)
  = c.
Proof.
  intros Hc. unfold join_surrogates.
  rewrite (N.add_comm 55296), (N.add_comm 56320), !N.add_sub.
  rewrite N.shiftl_mul_pow2. rewrite lor_high_low by (by apply N.mod_lt).
  change (2 ^ 10) with 1024.
  pose proof (N.div_mod (c - 65536) 1024 ltac:(lia)). lia.
Qed.

(** ** Strings: scanning what the encoder wrote *)

Lemma scanstring_u (h1 h2 h3 h4 : N) (r2 acc : str) :
  scanstring (92 :: 117 :: h1 :: h2 :: h3 :: h4 :: r2) acc =
  match decode_hex4 h1 h2 h3 h4 with
  | None => None
  | Some uni =>
      if is_high_surrogate uni then after_high uni r2 acc
      else scanstring r2 (uni :: acc)
  end.
Proof. reflexivity. Qed.

Lemma after_high_u (uni g1 g2 g3 g4 : N) (r4 acc : str) :
  after_high uni (92 :: 117 :: g1 :: g2 :: g3 :: g4 :: r4) acc =
  match decode_hex4 g1 g2 g3 g4 with
  | None => None
  | Some uni2 =>
      if is_low_surrogate uni2
      then scanstring r4 (join_surrogates uni uni2 :: acc)
      else scanstring (92 :: 117 :: g1 :: g2 :: g3 :: g4 :: r4) (uni :: acc)
  end.
Proof. reflexivity. Qed.

Lemma after_high_plain (uni b : N) (r acc : str) :
  b <> 92 -> after_high uni (b :: r) acc = scanstring (b :: r) (uni :: acc).
Proof.
  intros Hb. unfold after_high. destruct r as [|u r3]; [done|].
  by rewrite (proj2 (N.eqb_neq b 92) Hb).
Qed.

Lemma after_high_short (uni b u : N) (r acc : str) :
  u <> 117 ->
  after_high uni (b :: u :: r) acc = scanstring (b :: u :: r) (uni :: acc).
Proof.
  intros Hu. unfold after_high.
  by rewrite (proj2 (N.eqb_neq u 117) Hu), andb_false_r.
Qed.

(** The escape of a code point in the basic plane. *)
Lemma scan_u_escape (n : N) (t acc : str) :
  n < 65536 ->
  scanstring (u_escape n ++ t) acc =
  if is_high_surrogate n then after_high n t acc else scanstring t (n :: acc).
Proof.
  intros Hn. unfold u_escape, hex4. simpl app.
  by rewrite scanstring_u, decode_hex4_hex4.
Qed.

Lemma after_high_u_escape (uni n : N) (t acc : str) :
  n < 65536 -> is_low_surrogate n = false ->
  after_high uni (u_escape n ++ t) acc = scanstring (u_escape n ++ t) (uni :: acc).
Proof.
  intros Hn Hlow. unfold u_escape, hex4. simpl app.
  by rewrite after_high_u, decode_hex4_hex4, Hlow.
Qed.

Lemma high_surrogate_is_high (x : N) :
  x < 1024 -> is_high_surrogate (55296 + x) = true.
Proof. intros Hx. unfold is_high_surrogate. cmp. Qed.

Lemma high_surrogate_not_low (x : N) :
  x < 1024 -> is_low_surrogate (55296 + x) = false.
Proof. intros Hx. unfold is_low_surrogate. cmp. Qed.

Lemma low_surrogate_is_low (x : N) :
  x < 1024 -> is_low_surrogate (56320 + x) = true.
Proof. intros Hx. unfold is_low_surrogate. cmp. Qed.

Lemma surrogate_halves (c : N) :
  c < 1114112 -> (c - 65536) / 1024 < 1024 /\ (c - 65536) mod 1024 < 1024.
Proof.
  intros Hc. split.
  - apply N.Div0.div_lt_upper_bound. lia.
  - by apply N.mod_lt.
Qed.

(** One character: the scanner reads back what [escape_char] wrote, as long
    as a lone high surrogate is not followed by the escape of a low one. *)
Lemma after_high_escape_char (uni d : N) (t acc : str) :
  d < 1114112 -> is_low_surrogate d = false ->
  after_high uni (escape_char d ++ t) acc
  = scanstring (escape_char d ++ t) (uni :: acc).
Proof.
  intros Hd Hlow. unfold escape_char.
  destruct (N.eqb_spec d 92); [by apply after_high_short|].
  destruct (N.eqb_spec d 34); [by apply after_high_short|].
  destruct (N.eqb_spec d 8); [by apply after_high_short|].
  destruct (N.eqb_spec d 12); [by apply after_high_short|].
  destruct (N.eqb_spec d 10); [by apply after_high_short|].
  destruct (N.eqb_spec d 13); [by apply after_high_short|].
  destruct (N.eqb_spec d 9); [by apply after_high_short|].
  destruct ((32 <=? d) && (d <=? 126)) eqn:Hp; [by apply after_high_plain|].
  destruct (N.ltb_spec d 65536) as [Hs | Hs].
  - by apply after_high_u_escape.
  - cbv zeta. rewrite high_surrogate_of, <- app_assoc by lia.
    destruct (surrogate_halves d Hd) as [Hhi _].
    revert Hhi. generalize ((d - 65536) / 1024). intros x Hx.
    apply after_high_u_escape; [lia|by apply high_surrogate_not_low].
Qed.

Lemma scan_escape_char (c : N) (s rest acc : str) :
  escapable (c :: s) = true ->
  scanstring (escape_char c ++ flat_map escape_char s ++ 34 :: rest) acc
  = scanstring (flat_map escape_char s ++ 34 :: rest) (c :: acc).
Proof.
  intros Hs. simpl in Hs.
  apply andb_true_iff in Hs as [Hs Hs'].
  apply andb_true_iff in Hs as [Hc Hpair].
  apply N.ltb_lt in Hc. apply negb_true_iff in Hpair.
  set (t := flat_map escape_char s ++ 34 :: rest).
  assert (Hafter : is_high_surrogate c = true ->
                   after_high c t acc = scanstring t (c :: acc)).
  { intros Hhigh. rewrite Hhigh in Hpair. simpl in Hpair.
    subst t. destruct s as [|d s''].
    - change (flat_map escape_char [] ++ 34 :: rest) with (34 :: rest).
      by apply after_high_plain.
    - simpl flat_map. rewrite <- app_assoc.
      apply after_high_escape_char; [|done].
      simpl in Hs'. apply andb_true_iff in Hs' as [Hs' _].
      apply andb_true_iff in Hs' as [Hd _]. by apply N.ltb_lt in Hd. }
  clearbody t. unfold escape_char.
  destruct (N.eqb_spec c 92) as [->|]; [done|].
  destruct (N.eqb_spec c 34) as [->|]; [done|].
  destruct (N.eqb_spec c 8) as [->|]; [done|].
  destruct (N.eqb_spec c 12) as [->|]; [done|].
  destruct (N.eqb_spec c 10) as [->|]; [done|].
  destruct (N.eqb_spec c 13) as [->|]; [done|].
  destruct (N.eqb_spec c 9) as [->|]; [done|].
  destruct ((32 <=? c) && (c <=? 126)) eqn:Hp.
  - apply andb_true_iff in Hp as [Hlo Hhi].
    apply N.leb_le in Hlo. simpl.
    rewrite (proj2 (N.eqb_neq c 34)), (proj2 (N.eqb_neq c 92)) by done.
    by rewrite (proj2 (N.ltb_ge c 32)).
  - destruct (N.ltb_spec c 65536) as [Hsmall | Hbig].
    + rewrite scan_u_escape by done.
      destruct (is_high_surrogate c) eqn:Hhigh; [by apply Hafter|done].
    + cbv zeta. rewrite high_surrogate_of, low_surrogate_of by lia.
      destruct (surrogate_halves c Hc) as [Hhi Hlo].
      pose proof (join_surrogates_of c ltac:(lia)) as Hjoin.
      revert Hhi Hlo Hjoin.
      generalize ((c - 65536) / 1024), ((c - 65536) mod 1024).
      intros x y Hx Hy Hjoin.
      rewrite <- app_assoc, scan_u_escape by lia.
      rewrite high_surrogate_is_high by done.
      unfold u_escape at 1, hex4. simpl app.
      rewrite after_high_u, decode_hex4_hex4 by lia.
      by rewrite low_surrogate_is_low, Hjoin.
Qed.

(** [scanstring] inverts [encode_basestring_ascii]. *)
Lemma scanstring_escape (s : str) :
  forall acc rest,
    escapable s = true ->
    scanstring (flat_map escape_char s ++ 34 :: rest) acc
    = Some (rev acc ++ s, rest).
Proof.
  induction s as [|c s IH]; intros acc rest Hs.
  - simpl. by rewrite app_nil_r.
  - simpl flat_map. rewrite <- app_assoc, scan_escape_char by done.
    rewrite IH.
    + simpl. by rewrite <- app_assoc.
    + simpl in Hs. by apply andb_true_iff in Hs as [_ Hs].
Qed.

End JsonFacts.

Module JsonRoundTrip.
Import Py Json Model JsonFacts.

Section RoundTrip.
Context {RT : Runtime}.

Lemma scan_once_string (f d : nat) (r : str) :
  scan_once (S f) d (34 :: r) =
  match scanstring r [] with
  | Some (k, rest) => Scanned (PStr k) rest
  | None => Invalid
  end.
Proof. reflexivity. Qed.

Lemma scan_once_object (f d : nat) (r : str) :
  scan_once (S f) (S d) (123 :: r) =
  match skip_ws r with
  | q :: r1 =>
      if q =? 125 then Scanned (PDict []) r1
      else if q =? 34 then object_loop f d r1 []
      else Invalid
  | [] => Invalid
  end.
Proof. reflexivity. Qed.

Lemma scan_once_array (f d : nat) (r : str) :
  scan_once (S f) (S d) (91 :: r) =
  match skip_ws r with
  | q :: r1 =>
      if q =? 93 then Scanned (PList []) r1
      else array_loop f d (q :: r1) []
  | [] => array_loop f d [] []
  end.
Proof. reflexivity. Qed.

Lemma array_loop_eq (f d : nat) (s : str) (acc : list pyval) :
  array_loop (S f) d s acc =
  match scan_once f d s with
  | Scanned v rest =>
      match skip_ws rest with
      | q :: r1 =>
          if q =? 93 then Scanned (PList (rev (v :: acc))) r1
          else if q =? 44 then array_loop f d (skip_ws r1) (v :: acc)
          else Invalid
      | [] => Invalid
      end
  | Invalid => Invalid
  | Failed e => Failed e
  | Exhausted => Exhausted
  end.
Proof. reflexivity. Qed.

Lemma object_loop_eq (f d : nat) (s : str) (acc : list (str * pyval)) :
  object_loop (S f) d s acc =
  match scanstring s [] with
  | Some (key, rest) =>
      match skip_ws rest with
      | colon :: r1 =>
          if colon =? 58 then
            match scan_once f d (skip_ws r1) with
            | Scanned v rest' =>
                match skip_ws rest' with
                | q :: r2 =>
                    if q =? 125 then
                      Scanned (PDict (dict_of_pairs (rev ((key, v) :: acc)))) r2
                    else if q =? 44 then
                      match skip_ws r2 with
                      | q' :: r3 =>
                          if q' =? 34
                          then object_loop f d r3 ((key, v) :: acc)
                          else Invalid
                      | [] => Invalid
                      end
                    else Invalid
                | [] => Invalid
                end
            | Invalid => Invalid
            | Failed e => Failed e
            | Exhausted => Exhausted
            end
          else Invalid
      | [] => Invalid
      end
  | None => Invalid
  end.
Proof. reflexivity. Qed.

Lemma skip_ws_stop (c : N) (t : str) :
  is_ws c = false -> skip_ws (c :: t) = c :: t.
Proof. intros Hc. simpl. by rewrite Hc. Qed.

Lemma skip_ws_spaces (n : nat) (c : N) (t : str) :
  is_ws c = false -> skip_ws (repeat 32 n ++ c :: t) = c :: t.
Proof.
  intros Hc. induction n as [|n IH]; simpl.
  - by rewrite Hc.
  - done.
Qed.

Lemma skip_ws_newline_indent (level : nat) (c : N) (t : str) :
  is_ws c = false -> skip_ws (newline_indent level ++ c :: t) = c :: t.
Proof. intros Hc. unfold newline_indent. simpl. by apply skip_ws_spaces. Qed.

Lemma encode_app (s rest : str) :
  encode_basestring_ascii s ++ rest = 34 :: flat_map escape_char s ++ 34 :: rest.
Proof. unfold encode_basestring_ascii. simpl. by rewrite <- app_assoc. Qed.

Lemma scan_once_encoded (f d : nat) (s rest : str) :
  escapable s = true ->
  scan_once (S f) d (encode_basestring_ascii s ++ rest) = Scanned (PStr s) rest.
Proof.
  intros Hs. by rewrite encode_app, scan_once_string, scanstring_escape.
Qed.

(** [join] with what follows it, one part at a time. *)
Lemma join_app_tail (sep : str) (x : str) (xs : list str) (close : str) :
  join sep (x :: xs) ++ close
  = x ++ fold_right (fun y t => sep ++ y ++ t) close xs.
Proof.
  revert x. induction xs as [|y ys IH]; intros x.
  - done.
  - change (join sep (x :: y :: ys)) with (x ++ sep ++ join sep (y :: ys)).
    rewrite <- !app_assoc. by rewrite IH.
Qed.

Lemma skip_ws_ws (c : N) (t : str) :
  is_ws c = true -> skip_ws (c :: t) = skip_ws t.
Proof. intros Hc. simpl. by rewrite Hc. Qed.

Lemma scanstring_escape0 (s rest : str) :
  escapable s = true ->
  scanstring (flat_map escape_char s ++ 34 :: rest) [] = Some (s, rest).
Proof. intros Hs. by rewrite scanstring_escape. Qed.

(** Decide the comparisons between literal characters, and the branches
    that hang on them. *)
Ltac literal_tests :=
  cbv beta iota;
  repeat match goal with
    | |- context [N.eqb ?a ?b] =>
        let r := eval vm_compute in (N.eqb a b) in
        match r with
        | true => change (N.eqb a b) with true
        | false => change (N.eqb a b) with false
        end; cbv beta iota
    end.

Lemma member_app (level : nat) (k v t : str) :
  member level (k, v) ++ t
  = 34 :: flat_map escape_char k
    ++ 34 :: 58 :: 32 :: 34 :: flat_map escape_char v ++ 34 :: t.
Proof.
  unfold member. change (lit ": ") with [58; 32].
  cbn [fst snd]. rewrite <- !app_assoc. rewrite encode_app.
  cbn [app].
  change (iterencode level (PStr v)) with (encode_basestring_ascii v).
  by rewrite encode_app.
Qed.

(** One turn of the loop of [JSONObject] on a member the encoder wrote. *)
Lemma object_loop_member (f d : nat) (k v t : str)
    (acc : list (str * pyval)) :
  escapable k = true -> escapable v = true ->
  object_loop (S (S f)) d
    (flat_map escape_char k
     ++ 34 :: 58 :: 32 :: 34 :: flat_map escape_char v ++ 34 :: t) acc
  = match skip_ws t with
    | q :: r2 =>
        if q =? 125 then
          Scanned (PDict (dict_of_pairs (rev ((k, PStr v) :: acc)))) r2
        else if q =? 44 then
          match skip_ws r2 with
          | q' :: r3 =>
              if q' =? 34
              then object_loop (S f) d r3 ((k, PStr v) :: acc)
              else Invalid
          | [] => Invalid
          end
        else Invalid
    | [] => Invalid
    end.
Proof.
  intros Hk Hv.
  rewrite object_loop_eq, scanstring_escape0 by done.
  rewrite skip_ws_stop by done. literal_tests.
  rewrite skip_ws_ws, skip_ws_stop by done.
  by rewrite scan_once_string, scanstring_escape0.
Qed.

Lemma object_loop_members (level outer d : nat) (rest : str) :
  forall (more : list (str * str)) (k v : str) (acc : list (str * pyval))
         (fuel : nat),
    escapable k = true -> escapable v = true ->
    Forall escapable_pair more ->
    (length more + 2 <= fuel)%nat ->
    object_loop fuel d
      (flat_map escape_char k
       ++ 34 :: 58 :: 32 :: 34 :: flat_map escape_char v ++ 34
       :: fold_right (fun y t => item_separator level ++ y ++ t)
            (newline_indent outer ++ 125 :: rest)
            (List.map (member level) more)) acc
    = Scanned
        (PDict (dict_of_pairs
                  (rev acc ++ (k, PStr v) :: List.map string_pair more)))
        rest.
Proof.
  induction more as [|[k2 v2] more IH]; intros k v acc fuel Hk Hv Hmore Hfuel;
    (destruct fuel as [|[|f]]; [simpl in Hfuel; lia..|]);
    rewrite object_loop_member by done; cbn [List.map fold_right].
  - rewrite skip_ws_newline_indent by done. literal_tests.
    by cbn [rev].
  - unfold item_separator. cbn [app].
    rewrite skip_ws_stop by done. literal_tests.
    rewrite member_app.
    rewrite skip_ws_newline_indent by done. literal_tests.
    inversion Hmore as [|? ? [Hk2 Hv2] Hmore']; subst.
    rewrite IH; [|done..|simpl in *; lia].
    do 3 f_equal. cbn [rev]. by rewrite <- app_assoc.
Qed.

(** ** Article collections *)

Lemma article_text (level : nat) (a : Article) (t : str) :
  iterencode level (article_value a) ++ t
  = 123 :: newline_indent (S level)
    ++ member (S level) (lit "Published", published a)
    ++ fold_right (fun y t => item_separator (S level) ++ y ++ t)
         (newline_indent level ++ 125 :: t)
         (List.map (member (S level))
            [(lit "Title", title a); (lit "Description", description a);
             (lit "Link", link a)]).
Proof.
  unfold article_value. cbn [iterencode List.map fst snd app].
  f_equal. rewrite <- !app_assoc. f_equal.
  by rewrite (join_app_tail _ _ _ (newline_indent level ++ [125] ++ t)).
Qed.

Lemma scan_article (level : nat) (a : Article) (rest : str)
    (fuel d : nat) :
  escapable_article a -> (6 <= fuel)%nat ->
  scan_once fuel (S d) (iterencode level (article_value a) ++ rest)
  = Scanned (article_value a) rest.
Proof.
  intros (Hp & Ht & Hd & Hl) Hfuel.
  destruct fuel as [|f]; [lia|].
  rewrite article_text, scan_once_object, member_app.
  rewrite skip_ws_newline_indent by done. literal_tests.
  rewrite object_loop_members; [done|done|done| |simpl; lia].
  repeat constructor; done.
Qed.

Lemma skip_ws_article (k level : nat) (a : Article) (t : str) :
  skip_ws (newline_indent k ++ iterencode level (article_value a) ++ t)
  = iterencode level (article_value a) ++ t.
Proof. rewrite article_text. by apply skip_ws_newline_indent. Qed.

Lemma array_loop_articles (rest : str) (d : nat) :
  forall (more : list Article) (a : Article) (acc : list pyval) (fuel : nat),
    escapable_article a -> Forall escapable_article more ->
    (length more + 7 <= fuel)%nat ->
    array_loop fuel (S d)
      (iterencode 1 (article_value a)
       ++ fold_right (fun y t => item_separator 1 ++ y ++ t)
            (newline_indent 0 ++ 93 :: rest)
            (List.map (fun b => iterencode 1 (article_value b)) more)) acc
    = Scanned (PList (rev acc ++ article_value a :: List.map article_value more))
        rest.
Proof.
  induction more as [|b more IH]; intros a acc fuel Ha Hmore Hfuel;
    (destruct fuel as [|f]; [simpl in Hfuel; lia|]);
    rewrite array_loop_eq, scan_article by (done || simpl in Hfuel; lia);
    cbn [List.map fold_right].
  - rewrite skip_ws_newline_indent by done. literal_tests. by cbn [rev].
  - unfold item_separator at 1. cbn [app].
    rewrite skip_ws_stop by done. literal_tests.
    rewrite skip_ws_article.
    inversion Hmore as [|? ? Hb Hmore']; subst.
    rewrite IH; [|done..|simpl in *; lia].
    do 2 f_equal. cbn [rev]. by rewrite <- app_assoc.
Qed.

Lemma fold_right_sep_length (sep close : str) (parts : list str) :
  (1 <= length sep)%nat ->
  (length parts
   <= length (fold_right (fun y t => sep ++ y ++ t) close parts))%nat.
Proof.
  intros Hsep. induction parts as [|p parts IH]; simpl; [lia|].
  rewrite !length_app. lia.
Qed.

(** [json.loads(json.dumps(articles, indent=2))] gives the articles back,
    where the interpreter has room for the two levels of the document, the
    array and its objects. *)
Lemma decode_dumps_collection (articles : list Article) (d : nat) :
  Forall escapable_article articles ->
  decode (S (S d)) (dumps (collection_value articles))
  = Ok (collection_value articles).
Proof.
  intros Hall. unfold decode, dumps, collection_value.
  destruct articles as [|a more]; [done|].
  inversion Hall as [|? ? Ha Hmore]; subst.
  cbn [List.map iterencode].
  set (text := 91 :: _).
  assert (Htext : text =
    91 :: newline_indent 1 ++ iterencode 1 (article_value a)
    ++ fold_right (fun y t => item_separator 1 ++ y ++ t)
         (newline_indent 0 ++ 93 :: [])
         (List.map (fun b => iterencode 1 (article_value b)) more)).
  { subst text. f_equal. f_equal.
    rewrite (join_app_tail _ _ _ (newline_indent 0 ++ [93])).
    by rewrite List.map_map. }
  assert (Hlen : (length more + 4 <= length text)%nat).
  { rewrite Htext. cbn [length]. rewrite !length_app.
    pose proof (fold_right_sep_length (item_separator 1)
                  (newline_indent 0 ++ [93])
                  (List.map (fun b => iterencode 1 (article_value b)) more)
                  ltac:(simpl; lia)) as Hf.
    rewrite length_map in Hf. simpl length at 2. lia. }
  replace (2 * length text + 2)%nat with (S (2 * length text + 1)) by lia.
  assert (Hfuel : (length more + 7 <= 2 * length text + 1)%nat) by lia.
  revert Hfuel. generalize (2 * length text + 1)%nat. intros fuel Hfuel.
  rewrite Htext. rewrite skip_ws_stop by done.
  rewrite scan_once_array, skip_ws_article.
  rewrite article_text at 1. literal_tests. rewrite <- article_text.
  by rewrite array_loop_articles.
Qed.

Lemma loads_dumps_collection (articles : list Article) :
  (2 <= recursion_limit)%nat ->
  Forall escapable_article articles ->
  loads (dumps (collection_value articles)) = Ok (collection_value articles).
Proof.
  intros Hroom Hall. unfold loads.
  destruct recursion_limit as [|[|d]]; [lia..|].
  by apply decode_dumps_collection.
Qed.

End RoundTrip.
End JsonRoundTrip.

Module JsonTotal.
Import Py Json Model JsonFacts JsonRoundTrip.

(** Case analysis on the scrutinee of a [match] in a hypothesis. *)
Ltac break_match_in H :=
  match type of H with
  | context [match ?x with _ => _ end] => destruct x eqn:?
  end.

Lemma skip_ws_length (s : str) : (length (skip_ws s) <= length s)%nat.
Proof.
  induction s as [|c r IH]; simpl; [lia|].
  destruct (is_ws c); simpl; lia.
Qed.

Lemma strip_prefix_length (p : str) :
  forall s rest,
    strip_prefix p s = Some rest -> length s = (length p + length rest)%nat.
Proof.
  induction p as [|a p IH]; intros s rest H; simpl in H.
  - by simplify_eq.
  - destruct s as [|c s]; [done|].
    destruct (a =? c); [|done]. apply IH in H. simpl. lia.
Qed.

Lemma span_digits_length (s : str) :
  forall ds rest,
    span_digits s = (ds, rest) -> length s = (length ds + length rest)%nat.
Proof.
  induction s as [|c r IH]; intros ds rest H; simpl in H.
  - by simplify_eq.
  - destruct (is_digit c).
    + destruct (span_digits r) as [ds' rest'] eqn:E. simplify_eq.
      specialize (IH _ _ eq_refl). simpl. lia.
    + by simplify_eq.
Qed.

Lemma match_int_digits_shorter (s ds rest : str) :
  match_int_digits s = Some (ds, rest) -> (length rest < length s)%nat.
Proof.
  unfold match_int_digits. intros H.
  destruct s as [|c r]; [done|].
  destruct (c =? 48); [simplify_eq; simpl; lia|].
  destruct (is_digit c); [|done].
  destruct (span_digits r) as [ds' rest'] eqn:E. simplify_eq.
  apply span_digits_length in E. simpl. lia.
Qed.

Lemma match_frac_length (s f rest : str) :
  match_frac s = (f, rest) -> (length rest <= length s)%nat.
Proof.
  unfold match_frac. intros H.
  repeat break_match_in H; simplify_eq; try lia;
    match goal with
    | E : span_digits _ = _ |- _ => apply span_digits_length in E
    end; simpl in *; lia.
Qed.

Lemma match_exp_length (s e rest : str) :
  match_exp s = (e, rest) -> (length rest <= length s)%nat.
Proof.
  unfold match_exp. intros H.
  repeat break_match_in H; simplify_eq; try lia;
    match goal with
    | E : span_digits _ = _ |- _ => apply span_digits_length in E
    end; simpl in *; lia.
Qed.

Lemma match_number_shorter (s i f e rest : str) :
  match_number s = Some (i, f, e, rest) -> (length rest < length s)%nat.
Proof.
  unfold match_number. intros H.
  destruct (match s with
            | [] => ([], s)
            | c :: r => if c =? 45 then ([45], r) else ([], s)
            end) as [sign s1] eqn:Es.
  assert (length s1 <= length s)%nat.
  { destruct s as [|c r]; [by simplify_eq|].
    destruct (c =? 45); simplify_eq; simpl; lia. }
  destruct (match_int_digits s1) as [[ds s2]|] eqn:Ei; [|done].
  destruct (match_frac s2) as [fr s3] eqn:Ef.
  destruct (match_exp s3) as [ex s4] eqn:Ee.
  simplify_eq.
  apply match_int_digits_shorter in Ei.
  apply match_frac_length in Ef. apply match_exp_length in Ee. lia.
Qed.

Lemma scanstring_shorter_upto (n : nat) :
  forall s acc k rest,
    (length s <= n)%nat ->
    scanstring s acc = Some (k, rest) -> (length rest < length s)%nat.
Proof.
  induction n as [|n IH]; intros s acc k rest Hn H.
  - destruct s; [done|simpl in Hn; lia].
  - destruct s as [|c r]; [done|]. simpl in H.
    repeat (break_match_in H; try discriminate);
      cbn [length] in *;
      try (simplify_eq; cbn [length]; lia);
      (apply IH in H; cbn [length] in *; lia).
Qed.

Lemma scanstring_shorter (s acc k rest : str) :
  scanstring s acc = Some (k, rest) -> (length rest < length s)%nat.
Proof. by apply (scanstring_shorter_upto (length s)). Qed.

(** Decide the comparisons between literal characters, and the branches
    that hang on them. *)
Ltac literal_tests :=
  cbv beta iota;
  repeat match goal with
    | |- context [N.eqb ?a ?b] =>
        let r := eval vm_compute in (N.eqb a b) in
        match r with
        | true => change (N.eqb a b) with true
        | false => change (N.eqb a b) with false
        end; cbv beta iota
    end.

Section Fuel.
Context {RT : Runtime}.

Lemma scan_once_cons (f d : nat) (c : N) (r : str) :
  scan_once (S f) d (c :: r) =
  if c =? 34 then
    match scanstring r [] with
    | Some (k, rest) => Scanned (PStr k) rest
    | None => Invalid
    end
  else if c =? 123 then
    match d with
    | O => Failed RecursionError
    | S d' =>
        match skip_ws r with
        | q :: r1 =>
            if q =? 125 then Scanned (PDict []) r1
            else if q =? 34 then object_loop f d' r1 []
            else Invalid
        | [] => Invalid
        end
    end
  else if c =? 91 then
    match d with
    | O => Failed RecursionError
    | S d' =>
        match skip_ws r with
        | q :: r1 =>
            if q =? 93 then Scanned (PList []) r1
            else array_loop f d' (q :: r1) []
        | [] => array_loop f d' [] []
        end
    end
  else
    match strip_prefix (lit "null") (c :: r) with
    | Some rest => Scanned PNone rest
    | None =>
    match strip_prefix (lit "true") (c :: r) with
    | Some rest => Scanned (PBool true) rest
    | None =>
    match strip_prefix (lit "false") (c :: r) with
    | Some rest => Scanned (PBool false) rest
    | None =>
    match match_number (c :: r) with
    | Some (integer, frac, ex, rest) =>
        match frac, ex with
        | [], [] =>
            if too_many_digits integer then Failed ValueError
            else Scanned (PInt (parse_int integer)) rest
        | _, _ =>
            Scanned (PFloat (float_of_str (integer ++ frac ++ ex))) rest
        end
    | None =>
    match strip_prefix (lit "NaN") (c :: r) with
    | Some rest => Scanned (PFloat (float_of_str (lit "NaN"))) rest
    | None =>
    match strip_prefix (lit "Infinity") (c :: r) with
    | Some rest => Scanned (PFloat (float_of_str (lit "Infinity"))) rest
    | None =>
    match strip_prefix (lit "-Infinity") (c :: r) with
    | Some rest => Scanned (PFloat (float_of_str (lit "-Infinity"))) rest
    | None => Invalid
    end end end end end end end.
Proof. reflexivity. Qed.

(** Collect what is known about the lengths of the inputs in sight. *)
Ltac length_facts :=
  repeat match goal with
    | H : scanstring _ _ = Some _ |- _ => apply scanstring_shorter in H
    | H : strip_prefix _ _ = Some _ |- _ =>
        apply strip_prefix_length in H; simpl in H
    | H : match_number _ = Some _ |- _ => apply match_number_shorter in H
    | H : skip_ws ?r = _ |- _ =>
        let L := fresh "L" in
        pose proof (skip_ws_length r) as L; rewrite H in L; clear H
    end;
  repeat match goal with
    | |- context [length (skip_ws ?r)] =>
        lazymatch goal with
        | _ : (length (skip_ws r) <= length r)%nat |- _ => fail
        | _ => pose proof (skip_ws_length r)
        end
    | _ : context [length (skip_ws ?r)] |- _ =>
        lazymatch goal with
        | _ : (length (skip_ws r) <= length r)%nat |- _ => fail
        | _ => pose proof (skip_ws_length r)
        end
    end;
  cbn [length] in *.

(** Every successful scan consumes input. *)
Lemma scan_shorter (fuel : nat) :
  (forall d s v rest,
     scan_once fuel d s = Scanned v rest -> (length rest < length s)%nat) /\
  (forall d s acc v rest,
     array_loop fuel d s acc = Scanned v rest ->
     (length rest < length s)%nat) /\
  (forall d s acc v rest,
     object_loop fuel d s acc = Scanned v rest ->
     (length rest < length s)%nat).
Proof.
  induction fuel as [|f (IHs & IHa & IHo)]; [by repeat split|].
  repeat split.
  - intros d s v rest H. destruct s as [|c r]; [done|].
    rewrite scan_once_cons in H.
    repeat (break_match_in H; try discriminate); simplify_eq;
      repeat match goal with
        | H : object_loop f _ _ _ = Scanned _ _ |- _ => apply IHo in H
        | H : array_loop f _ _ _ = Scanned _ _ |- _ => apply IHa in H
        end;
      length_facts; lia.
  - intros d s acc v rest H. rewrite array_loop_eq in H.
    repeat (break_match_in H; try discriminate); simplify_eq;
      repeat match goal with
        | H : scan_once f _ _ = Scanned _ _ |- _ => apply IHs in H
        | H : array_loop f _ _ _ = Scanned _ _ |- _ => apply IHa in H
        end;
      length_facts; lia.
  - intros d s acc v rest H. rewrite object_loop_eq in H.
    repeat (break_match_in H; try discriminate); simplify_eq;
      repeat match goal with
        | H : scan_once f _ _ = Scanned _ _ |- _ => apply IHs in H
        | H : object_loop f _ _ _ = Scanned _ _ |- _ => apply IHo in H
        end;
      length_facts; lia.
Qed.

(** Two units of fuel per character are never used up. *)
Lemma fuel_enough (fuel : nat) :
  (forall d s,
     (2 * length s + 1 <= fuel)%nat -> scan_once fuel d s <> Exhausted) /\
  (forall d s acc,
     (2 * length s + 2 <= fuel)%nat -> array_loop fuel d s acc <> Exhausted) /\
  (forall d s acc,
     (2 * length s + 2 <= fuel)%nat -> object_loop fuel d s acc <> Exhausted).
Proof.
  induction fuel as [|f (IHs & IHa & IHo)]; [repeat split; intros; lia|].
  pose proof (scan_shorter f) as (Ss & Sa & So).
  repeat split.
  - intros d s Hf H. destruct s as [|c r]; [done|].
    rewrite scan_once_cons in H. cbn [length] in Hf.
    repeat (break_match_in H; try discriminate);
      first [ revert H; apply IHo | revert H; apply IHa ];
      length_facts; lia.
  - intros d s acc Hf H. rewrite array_loop_eq in H.
    repeat (break_match_in H; try discriminate);
      repeat match goal with
        | H : scan_once f _ _ = Scanned _ _ |- _ => apply Ss in H
        end;
      first [ revert H; apply IHa
            | match goal with
              | H : scan_once f _ _ = Exhausted |- _ => revert H; apply IHs
              end ];
      length_facts; lia.
  - intros d s acc Hf H. rewrite object_loop_eq in H.
    repeat (break_match_in H; try discriminate);
      repeat match goal with
        | H : scan_once f _ _ = Scanned _ _ |- _ => apply Ss in H
        end;
      first [ revert H; apply IHo
            | match goal with
              | H : scan_once f _ _ = Exhausted |- _ => revert H; apply IHs
              end ];
      length_facts; lia.
Qed.

(** The exceptions of the scanner: the recursion limit and the digit
    limit. *)
Lemma scan_failures (fuel : nat) :
  (forall d s e,
     scan_once fuel d s = Failed e -> e = RecursionError \/ e = ValueError) /\
  (forall d s acc e,
     array_loop fuel d s acc = Failed e ->
     e = RecursionError \/ e = ValueError) /\
  (forall d s acc e,
     object_loop fuel d s acc = Failed e ->
     e = RecursionError \/ e = ValueError).
Proof.
  induction fuel as [|f (IHs & IHa & IHo)]; [by repeat split|].
  repeat split.
  - intros d s e H. destruct s as [|c r]; [done|].
    rewrite scan_once_cons in H.
    repeat (break_match_in H; try discriminate); simplify_eq; eauto.
  - intros d s acc e H. rewrite array_loop_eq in H.
    repeat (break_match_in H; try discriminate); simplify_eq; eauto.
  - intros d s acc e H. rewrite object_loop_eq in H.
    repeat (break_match_in H; try discriminate); simplify_eq; eauto.
Qed.

(** [json.loads] returns a value or raises [JSONDecodeError],
    [RecursionError] or [ValueError]. *)
Lemma decode_outcomes (d : nat) (s : str) :
  (exists v, decode d s = Ok v) \/ decode d s = Raise JSONDecodeError \/
  decode d s = Raise RecursionError \/ decode d s = Raise ValueError.
Proof.
  unfold decode.
  destruct (scan_once (2 * length s + 2) d (skip_ws s)) as [v rest| |e|] eqn:E.
  - destruct (skip_ws rest); eauto.
  - eauto.
  - apply scan_failures in E as [-> | ->]; eauto.
  - exfalso. revert E. apply fuel_enough.
    pose proof (skip_ws_length s). lia.
Qed.

Lemma loads_outcomes (s : str) :
  (exists v, loads s = Ok v) \/ loads s = Raise JSONDecodeError \/
  loads s = Raise RecursionError \/ loads s = Raise ValueError.
Proof. apply decode_outcomes. Qed.

(** ** The recursion limit *)

(** One array more than the interpreter has room for, whatever follows. *)
Lemma scan_once_too_deep (d : nat) :
  forall fuel rest,
    (2 * d + 1 <= fuel)%nat ->
    scan_once fuel d (repeat 91 (S d) ++ rest) = Failed RecursionError.
Proof.
  induction d as [|d IH]; intros fuel rest Hfuel;
    (destruct fuel as [|f]; [lia|]).
  - done.
  - change (repeat 91 (S (S d)) ++ rest)
      with (91 :: (91 :: repeat 91 d ++ rest)).
    rewrite scan_once_array, skip_ws_stop by done. literal_tests.
    destruct f as [|f]; [lia|].
    rewrite array_loop_eq.
    change (91 :: repeat 91 d ++ rest) with (repeat 91 (S d) ++ rest).
    rewrite IH; [done|lia].
Qed.

Lemma decode_too_deep (d : nat) (rest : str) :
  decode d (repeat 91 (S d) ++ rest) = Raise RecursionError.
Proof.
  unfold decode.
  change (skip_ws (repeat 91 (S d) ++ rest)) with (repeat 91 (S d) ++ rest).
  rewrite scan_once_too_deep; [done|].
  rewrite length_app, repeat_length. lia.
Qed.

(** Opening brackets alone are no JSON document, whatever the limits. *)
Lemma scan_brackets (fuel : nat) :
  (forall d n v rest, scan_once fuel d (repeat 91 n) <> Scanned v rest) /\
  (forall d n acc v rest,
     array_loop fuel d (repeat 91 n) acc <> Scanned v rest).
Proof.
  induction fuel as [|f [IHs IHa]]; [by split|]. split.
  - intros d [|n] v rest; [done|].
    change (repeat 91 (S n)) with (91 :: repeat 91 n).
    rewrite scan_once_cons. literal_tests.
    destruct d as [|d]; [done|].
    destruct n as [|n].
    + apply (IHa d O).
    + change (skip_ws (repeat 91 (S n))) with (91 :: repeat 91 n).
      literal_tests. apply (IHa d (S n)).
  - intros d n acc v rest. rewrite array_loop_eq.
    destruct (scan_once f d (repeat 91 n)) as [v' rest'| | |] eqn:E; try done.
    by apply IHs in E.
Qed.

Lemma decode_brackets (d n : nat) (v : pyval) :
  decode d (repeat 91 (S n)) <> Ok v.
Proof.
  unfold decode.
  change (skip_ws (repeat 91 (S n))) with (repeat 91 (S n)).
  destruct (scan_once _ d (repeat 91 (S n))) as [v' rest| |e|] eqn:E;
    try done.
  by apply scan_brackets in E.
Qed.

End Fuel.
End JsonTotal.

Module Refresh.
Import Py Json Sys NewsFeed Model.

Section Refresh.
Context {RT : Runtime}.

(** ** The monad *)

Lemma bind_ok {A B} (m : M A) (k : A -> M B) (w w' : world) (a : A) :
  m w = (Ok a, w') -> bind m k w = k a w'.
Proof. intros H. unfold bind. by rewrite H. Qed.

Lemma bind_raise {A B} (m : M A) (k : A -> M B) (w w' : world) (e : exn) :
  m w = (Raise e, w') -> bind m k w = (Raise e, w').
Proof. intros H. unfold bind. by rewrite H. Qed.

Lemma bind_inv_ok {A B} (m : M A) (k : A -> M B) (w w' : world) (b : B) :
  bind m k w = (Ok b, w') ->
  exists a w1, m w = (Ok a, w1) /\ k a w1 = (Ok b, w').
Proof.
  unfold bind. destruct (m w) as [[a|e] w1]; [eauto|done].
Qed.

(** Every exception of the model is an instance of [Exception]. *)
Lemma isinstance_Exception (e : exn) : isinstance e CException = true.
Proof. by destruct e. Qed.

(** ** What a fetch leaves alone *)

Lemma same_but_calls_refl (w : world) : same_but_calls w w.
Proof. by repeat split. Qed.

Lemma same_but_calls_trans (w1 w2 w3 : world) :
  same_but_calls w1 w2 -> same_but_calls w2 w3 -> same_but_calls w1 w3.
Proof.
  intros (? & ? & ? & ? & ?) (? & ? & ? & ? & ?). repeat split; congruence.
Qed.

Lemma fetch_data_frame (self : NewsFeedManager) (sensor : str) (w w' : world)
    (r : res pyval) :
  fetch_data self sensor w = (r, w') -> same_but_calls w w'.
Proof.
  unfold fetch_data, bind, requests_get, lift. intros H.
  destruct (endpoint w (environ w) (length (calls w)) _) as [response|e];
    simpl in H.
  - destruct (raise_for_status response); simplify_eq; by repeat split.
  - simplify_eq. by repeat split.
Qed.

Lemma fetch_sensor_frame (self : NewsFeedManager) (sensor : str)
    (w w' : world) (r : res (list pyval)) :
  fetch_sensor self sensor w = (r, w') -> same_but_calls w w'.
Proof.
  unfold fetch_sensor, bind, lift. intros H.
  destruct (fetch_data self sensor w) as [[data|e] w1] eqn:E;
    simplify_eq; by eapply fetch_data_frame.
Qed.

Lemma fetches_frame (self : NewsFeedManager) (todo : list str)
    (w w' : world) (news : list (list pyval)) :
  fetches self todo w news w' -> same_but_calls w w'.
Proof.
  induction 1 as [|? ? ? ? ? ? ? Hf _ IH]; [apply same_but_calls_refl|].
  eapply same_but_calls_trans; [by eapply fetch_sensor_frame|done].
Qed.

(** ** The loop over the sensors *)

Lemma fetch_all_ok (self : NewsFeedManager) (todo : list str) :
  forall (articles result : list pyval) (w w' : world),
    fetch_all self todo articles w = (Ok result, w') <->
    exists news,
      fetches self todo w news w' /\ result = articles ++ concat news.
Proof.
  induction todo as [|sensor todo IH]; intros articles result w w'; simpl.
  - unfold ret. split.
    + intros H. simplify_eq. exists []. split; [constructor|].
      by rewrite app_nil_r.
    + intros (news & Hf & ->). inversion Hf; subst. simpl.
      by rewrite app_nil_r.
  - unfold bind.
    destruct (fetch_sensor self sensor w) as [[new|e] w1] eqn:E.
    + rewrite IH. split.
      * intros (news & Hf & ->). exists (new :: news). split.
        -- by econstructor.
        -- simpl. by rewrite app_assoc.
      * intros (news & Hf & ->).
        inversion Hf as [|? ? ? ? ? ? ? Hs Hrest]; subst.
        rewrite E in Hs. simplify_eq.
        eexists. split; [eassumption|]. simpl. by rewrite app_assoc.
    + split; [done|]. intros (news & Hf & _). inversion Hf; subst.
      congruence.
Qed.

Lemma fetch_all_raise (self : NewsFeedManager) (todo : list str) :
  forall (articles : list pyval) (w w' : world) (e : exn),
    fetch_all self todo articles w = (Raise e, w') <->
    exists done_ sensor rest news w1,
      todo = done_ ++ sensor :: rest /\
      fetches self done_ w news w1 /\
      fetch_sensor self sensor w1 = (Raise e, w').
Proof.
  induction todo as [|sensor todo IH]; intros articles w w' e; simpl.
  - split; [done|]. intros (d & ? & ? & ? & ? & H & _).
    by destruct d.
  - unfold bind.
    destruct (fetch_sensor self sensor w) as [[new|e'] w1] eqn:E.
    + rewrite IH. split.
      * intros (d & s & r & news & w2 & -> & Hf & Hr).
        exists (sensor :: d), s, r, (new :: news), w2.
        repeat split; [|done]. by econstructor.
      * intros (d & s & r & news & w2 & Ht & Hf & Hr).
        destruct d as [|s0 d]; simpl in Ht; simplify_eq.
        -- inversion Hf; subst. congruence.
        -- inversion Hf as [|? ? ? ? ? ? ? Hs Hrest]; subst.
           rewrite E in Hs. simplify_eq.
           by eexists d, s, r, _, w2.
    + split.
      * intros H. simplify_eq. exists [], sensor, todo, [], w.
        repeat split; [constructor|done].
      * intros (d & s & r & news & w2 & Ht & Hf & Hr).
        destruct d as [|s0 d]; simpl in Ht; simplify_eq.
        -- inversion Hf; subst. congruence.
        -- inversion Hf; subst. congruence.
Qed.

Lemma fetch_all_frame (self : NewsFeedManager) (todo : list str)
    (articles : list pyval) (w w' : world) (r : res (list pyval)) :
  fetch_all self todo articles w = (r, w') -> same_but_calls w w'.
Proof.
  destruct r as [result|e]; intros H.
  - apply fetch_all_ok in H as (news & Hf & _). by eapply fetches_frame.
  - apply fetch_all_raise in H as (d & s & r & news & w1 & _ & Hf & Hr).
    eapply same_but_calls_trans; [by eapply fetches_frame|].
    by eapply fetch_sensor_frame.
Qed.

(** ** The handler of [update_news_data] *)

Lemma update_news_data_unfold (self : NewsFeedManager) (w : world) :
  update_news_data self w =
  match bind (fetch_all self (sensors self) [])
          (fun articles => bind (save self articles) (fun _ => ret true)) w
  with
  | (Ok b, w') => (Ok b, w')
  | (Raise e, w') =>
      bind (print (lit "Error updating news data: " ++ exn_str e))
        (fun _ => ret false) w'
  end.
Proof.
  unfold update_news_data, try_except.
  destruct (bind _ _ w) as [[b|e] w']; [done|].
  simpl. by rewrite isinstance_Exception.
Qed.

(** The outcome of [update_news_data], in full. *)
Lemma update_news_data_outcome (self : NewsFeedManager) (w : world) :
  exists (b : bool) (w' : world),
    update_news_data self w = (Ok b, w') /\
    (b = true <->
     exists news w1,
       fetches self (sensors self) w news w1 /\
       save self (concat news) w1 = (Ok tt, w')) /\
    (b = false ->
     exists e w1,
       w' = snd (print (lit "Error updating news data: " ++ exn_str e) w1)).
Proof.
  rewrite update_news_data_unfold. unfold bind at 1.
  destruct (fetch_all self (sensors self) [] w) as [[articles|e] w1] eqn:Ef.
  - apply fetch_all_ok in Ef as (news & Hf & ->). simpl app.
    unfold bind at 1.
    destruct (save self (concat news) w1) as [[[]|e] w2] eqn:Es.
    + exists true, w2. unfold ret. split; [done|]. split; [|done].
      split; [|done]. intros _. by exists news, w1.
    + eexists false, _. unfold bind, print, ret. split; [done|].
      split; [|intros _; by exists e, w2].
      split; [done|]. intros (news' & w1' & Hf' & Hs').
      exfalso. clear -Hf Hf' Es Hs'.
      assert (news' = news /\ w1' = w1) as [-> ->].
      { clear Es Hs'. revert news' w1' Hf'.
        induction Hf as [|? ? ? ? ? ? ? Hs _ IH]; intros news' w1' Hf';
          inversion Hf' as [|? ? ? ? ? ? ? Hs' Hrest']; subst; [done|].
        rewrite Hs in Hs'. simplify_eq.
        by destruct (IH _ _ Hrest') as [-> ->]. }
      congruence.
  - eexists false, _. unfold bind, print, ret. split; [done|].
    split; [|intros _; by exists e, w1].
    split; [done|]. intros (news' & w1' & Hf' & _). exfalso.
    assert (fetch_all self (sensors self) [] w = (Ok ([] ++ concat news'), w1'))
      as Hok by (apply fetch_all_ok; eauto).
    congruence.
Qed.

(** C1. For every list of sources and every outcome of the fetches and of
    the write, refresh returns a boolean and never raises; it returns
    [true] exactly when every configured source was fetched and the
    collection was saved, and an exception raised during fetch or save is
    reported on the console and turned into [false]. *)
Theorem refresh_true_only_if_all_succeed
    (self : NewsFeedManager) (w : world) :
  exists (b : bool) (w' : world),
    update_news_data self w = (Ok b, w') /\
    (b = true <->
     exists news w1,
       fetches self (sensors self) w news w1 /\
       save self (concat news) w1 = (Ok tt, w')) /\
    (b = false ->
     exists e w1,
       w' = snd (print (lit "Error updating news data: " ++ exn_str e) w1)).
Proof. apply update_news_data_outcome. Qed.

(** C2. If the fetch of any source fails during refresh, refresh returns
    [false] and the file store is what it was: an absent file stays absent,
    existing contents stay as they are. *)
Theorem failed_fetch_leaves_store_untouched
    (self : NewsFeedManager) (w : world)
    (fetched : list str) (sensor : str) (remaining : list str)
    (news : list (list pyval)) (w1 w2 : world) (e : exn) :
  sensors self = fetched ++ sensor :: remaining ->
  fetches self fetched w news w1 ->
  fetch_sensor self sensor w1 = (Raise e, w2) ->
  exists w',
    update_news_data self w = (Ok false, w') /\
    files w' = files w.
Proof.
  intros Hs Hf Hr.
  assert (fetch_all self (sensors self) [] w = (Raise e, w2)) as Hall.
  { apply fetch_all_raise. by exists fetched, sensor, remaining, news, w1. }
  rewrite update_news_data_unfold. unfold bind at 1. rewrite Hall.
  eexists. split; [done|]. simpl.
  by apply fetch_all_frame in Hall as (? & _).
Qed.

End Refresh.
End Refresh.

Module Store.
Import Py Json Sys NewsFeed Model JsonFacts JsonRoundTrip JsonTotal Refresh.

Section Store.
Context {RT : Runtime}.

(** ** Load *)

Lemma read_file_world (path : str) (w w' : world) (r : res str) :
  read_file path w = (r, w') -> w' = w.
Proof.
  unfold read_file.
  destruct (files w !! path) as [[content|]|],
    (refusal w Reading path) as [e|]; intros; by simplify_eq.
Qed.

(** What [open] and [read] make of a path. *)
Lemma read_file_cases (path : str) (w : world) :
  read_file path w =
  (match files w !! path, refusal w Reading path with
   | Some Directory, _ => Raise IsADirectoryError
   | _, Some e => Raise e
   | Some (File content), None => Ok content
   | None, None => Raise FileNotFoundError
   end, w).
Proof.
  unfold read_file.
  by destruct (files w !! path) as [[content|]|],
    (refusal w Reading path) as [e|].
Qed.

(** The decoder raises nothing the first handler would take. *)
Lemma loads_not_missing (content : str) (e : exn) :
  loads content = Raise e -> isinstance e CFileNotFoundError = false.
Proof.
  intros H.
  destruct (loads_outcomes content) as [[v Hv] | [Hd | [Hd | Hd]]];
    rewrite Hd in H || rewrite Hv in H; by simplify_eq.
Qed.

(** [get_file_contents], case by case on what reading the file gives: of
    the exceptions of [open], [read] and [json.load], the instances of
    [FileNotFoundError] and of [JSONDecodeError] are absorbed, in this
    order, and the others pass. *)
Lemma get_file_contents_cases (self : NewsFeedManager) (w : world) :
  get_file_contents self w =
  match fst (read_file (output_file self) w) with
  | Ok content =>
      match loads content with
      | Ok v => (Ok v, w)
      | Raise e =>
          if isinstance e CJSONDecodeError
          then (Ok (PList []), snd (print (decode_error_line self) w))
          else (Raise e, w)
      end
  | Raise e =>
      if isinstance e CFileNotFoundError
      then (Ok (PList []), snd (print (not_found_line self) w))
      else if isinstance e CJSONDecodeError
      then (Ok (PList []), snd (print (decode_error_line self) w))
      else (Raise e, w)
  end.
Proof.
  unfold get_file_contents, try_except, json_load, bind, lift.
  destruct (read_file (output_file self) w) as [[content|e] w'] eqn:E;
    apply read_file_world in E as ->; simpl.
  - destruct (loads content) as [v|e] eqn:El; [done|].
    rewrite (loads_not_missing _ _ El).
    by destruct (isinstance e CJSONDecodeError).
  - destruct (isinstance e CFileNotFoundError); [done|].
    by destruct (isinstance e CJSONDecodeError).
Qed.

Lemma get_file_contents_text (self : NewsFeedManager) (w : world)
    (content : str) :
  files w !! output_file self = Some (File content) ->
  refusal w Reading (output_file self) = None ->
  get_file_contents self w =
  match loads content with
  | Ok v => (Ok v, w)
  | Raise e =>
      if isinstance e CJSONDecodeError
      then (Ok (PList []), snd (print (decode_error_line self) w))
      else (Raise e, w)
  end.
Proof.
  intros Hfile Hopen.
  by rewrite get_file_contents_cases, read_file_cases, Hfile, Hopen.
Qed.

(** C3, as the code has it.  Loading absorbs two errors, returning the
    empty collection and leaving the file store as it was: [open] reports
    the file missing with [FileNotFoundError], or the text of the file is
    read and [json.load] rejects it with [JSONDecodeError].  No other error
    is absorbed: what [open] and [read] raise otherwise (a directory on the
    path that is a file, a permission, a name too long, bytes that are no
    text) reaches the caller, and so do the two other exceptions of the
    decoder, [RecursionError] for a document nested deeper than the
    interpreter allows and [ValueError] for an integer longer than it
    converts. *)
Theorem load_absorbs_missing_file_and_decode_error_only
    (self : NewsFeedManager) (w : world) :
  (read_file (output_file self) w = (Raise FileNotFoundError, w) ->
   exists w',
     get_file_contents self w = (Ok (PList []), w') /\ files w' = files w) /\
  (forall content,
     read_file (output_file self) w = (Ok content, w) ->
     loads content = Raise JSONDecodeError ->
     exists w',
       get_file_contents self w = (Ok (PList []), w') /\ files w' = files w) /\
  (forall e,
     read_file (output_file self) w = (Raise e, w) ->
     isinstance e CFileNotFoundError = false ->
     isinstance e CJSONDecodeError = false ->
     get_file_contents self w = (Raise e, w)) /\
  (forall content e,
     read_file (output_file self) w = (Ok content, w) ->
     loads content = Raise e ->
     e <> JSONDecodeError ->
     (e = RecursionError \/ e = ValueError) /\
     get_file_contents self w = (Raise e, w)).
Proof.
  split; [|split; [|split]].
  - intros Hread. rewrite get_file_contents_cases, Hread. by eexists.
  - intros content Hread Hdecode.
    rewrite get_file_contents_cases, Hread. simpl.
    rewrite Hdecode. by eexists.
  - intros e Hread Hmissing Hdecode.
    rewrite get_file_contents_cases, Hread. simpl.
    by rewrite Hmissing, Hdecode.
  - intros content e Hread Hdecode Hother.
    rewrite get_file_contents_cases, Hread. simpl. rewrite Hdecode.
    destruct (loads_outcomes content) as [[v Hv] | [Hd | [Hd | Hd]]];
      rewrite Hd in Hdecode || rewrite Hv in Hdecode; simplify_eq; auto.
Qed.

(** ** Save *)

Lemma writable_cases (w : world) (path : str) :
  writable w path = true <->
  files w !! path <> Some Directory /\
  refusal w Creating path = None /\ refusal w Writing path = None.
Proof.
  unfold writable.
  destruct (files w !! path) as [[content|]|],
    (refusal w Creating path), (refusal w Writing path);
    split; try done; intros (? & ? & ?); done.
Qed.

(** A save that succeeds: the path could be written, and the file holds the
    serialization, nothing else having changed. *)
Lemma save_ok (self : NewsFeedManager) (articles : list pyval) (w w' : world) :
  save self articles w = (Ok tt, w') <->
  writable w (output_file self) = true /\
  w' = set_files
         (<[output_file self := File (dumps (PList articles))]> (files w)) w.
Proof.
  unfold save, bind, open_w, json_dump, write, writable.
  destruct (files w !! output_file self) as [[content|]|] eqn:E,
    (refusal w Creating (output_file self)) as [e1|] eqn:E1; simpl;
    try (split; [done|by intros []]);
    rewrite lookup_insert_eq;
    destruct (refusal w Writing (output_file self)) as [e2|] eqn:E2;
    try (split; [done|by intros []]);
    unfold set_files; simpl; rewrite insert_insert_eq;
    (split; [intros; by simplify_eq | by intros [_ ->]]).
Qed.

(** A save that fails: the path could not be written; the file store is
    as it was, or the file is there and empty. *)
Lemma save_raise (self : NewsFeedManager) (articles : list pyval)
    (w w' : world) (e : exn) :
  save self articles w = (Raise e, w') ->
  writable w (output_file self) = false /\
  calls w' = calls w /\ refusal w' = refusal w /\
  (files w' = files w \/
   files w' = <[output_file self := File []]> (files w)).
Proof.
  unfold save, bind, open_w, json_dump, write, writable.
  destruct (files w !! output_file self) as [[content|]|] eqn:E,
    (refusal w Creating (output_file self)) as [e1|] eqn:E1; simpl;
    try (intros; simplify_eq; by auto);
    rewrite lookup_insert_eq;
    destruct (refusal w Writing (output_file self)) as [e2|] eqn:E2;
    intros; simplify_eq; by auto.
Qed.

Lemma save_ok_file (self : NewsFeedManager) (articles : list pyval)
    (w w' : world) :
  save self articles w = (Ok tt, w') ->
  files w' !! output_file self = Some (File (dumps (PList articles))).
Proof.
  intros H. apply save_ok in H as [_ ->]. simpl. by rewrite lookup_insert_eq.
Qed.

Lemma save_ok_refusal (self : NewsFeedManager) (articles : list pyval)
    (w w' : world) :
  save self articles w = (Ok tt, w') -> refusal w' = refusal w.
Proof. intros H. by apply save_ok in H as [_ ->]. Qed.

(** ** Round trip *)

Lemma unicode_text_escapable (s : str) :
  unicode_text s = true -> escapable s = true.
Proof.
  induction s as [|c s IH]; [done|]. simpl. intros H.
  apply andb_true_iff in H as [Hc Hs]. rewrite (IH Hs), andb_true_r.
  unfold is_scalar in Hc. apply andb_true_iff in Hc as [Hlt Hns].
  rewrite Hlt. simpl. apply negb_true_iff in Hns.
  apply negb_true_iff, andb_false_iff. left.
  unfold is_high_surrogate.
  apply andb_false_iff in Hns as [Hns | Hns].
  - by rewrite Hns.
  - apply andb_false_iff. right.
    apply N.leb_gt in Hns. apply N.leb_gt. lia.
Qed.

Lemma valid_article_escapable (a : Article) :
  valid_article a = true -> escapable_article a.
Proof.
  unfold valid_article. rewrite !andb_true_iff.
  intros [[[? ?] ?] ?]. repeat split; by apply unicode_text_escapable.
Qed.

Lemma valid_articles_escapable (articles : list Article) :
  forallb valid_article articles = true -> Forall escapable_article articles.
Proof.
  rewrite forallb_forall, List.Forall_forall.
  intros H a Ha. apply valid_article_escapable. by apply H.
Qed.

(** Loading what a save of escapable strings wrote, where the file can be
    read back and the interpreter has room for the two levels of the
    document. *)
Lemma load_after_save (self : NewsFeedManager) (articles : list Article)
    (w w1 : world) :
  Forall escapable_article articles ->
  save self (List.map article_value articles) w = (Ok tt, w1) ->
  refusal w1 Reading (output_file self) = None ->
  (2 <= recursion_limit)%nat ->
  get_file_contents self w1 = (Ok (collection_value articles), w1).
Proof.
  intros Hesc Hsave Hread Hroom. apply save_ok_file in Hsave.
  rewrite (get_file_contents_text _ _ _ Hsave Hread).
  change (PList (List.map article_value articles))
    with (collection_value articles).
  by rewrite loads_dumps_collection.
Qed.

(** C4. For every valid Article Collection, whenever saving it to the
    backing file succeeds, loading afterwards yields the same collection,
    the same Articles, field for field, in the same order; the load being
    one that can open and read the file, in an interpreter with room for
    the two levels of the document. *)
Theorem save_then_load_round_trip
    (self : NewsFeedManager) (articles : list Article) (w w1 : world) :
  forallb valid_article articles = true ->
  save self (List.map article_value articles) w = (Ok tt, w1) ->
  refusal w1 Reading (output_file self) = None ->
  (2 <= recursion_limit)%nat ->
  get_file_contents self w1 = (Ok (collection_value articles), w1).
Proof.
  intros Hvalid Hsave Hread Hroom.
  eapply load_after_save; [|done..]. by apply valid_articles_escapable.
Qed.

(** The limit of the round trip: a high surrogate directly before a low
    one is written as two escapes and read back as one character. *)
Lemma split_surrogate_pair_joined :
  loads (dumps (PStr [55357; 56832])) = Ok (PStr [128512]).
Proof. reflexivity. Qed.

End Store.
End Store.

Module Queries.
Import Py Json Sys NewsFeed Model JsonFacts JsonRoundTrip JsonTotal Refresh Store.

Section Queries.
Context {RT : Runtime}.

(** ** The mapping of items to Articles *)

Lemma article_of_item_spec (item article : pyval) :
  article_of_item item = Ok article <-> article_of item article.
Proof.
  unfold article_of_item, article_of, getitem, get_default, res_bind.
  split.
  - intros H. destruct item as [| | | | |l|fields]; try done.
    destruct (dict_lookup fields (lit "pubDate")) as [p|] eqn:Ep; [|done].
    destruct (dict_lookup fields (lit "title")) as [t|] eqn:Et; [|done].
    destruct (dict_lookup fields (lit "link")) as [l|] eqn:El; [|done].
    simplify_eq. exists fields, p, t, l.
    repeat split; done.
  - intros (fields & p & t & l & -> & Hp & Ht & Hl & ->).
    rewrite Hp, Ht, Hl.
    by destruct (dict_lookup fields (lit "description")).
Qed.

Lemma res_map_Forall2 {A B} (f : A -> res B) (l : list A) (l' : list B) :
  res_map f l = Ok l' <-> Forall2 (fun a b => f a = Ok b) l l'.
Proof.
  revert l'. induction l as [|a l IH]; intros l'; simpl.
  - split.
    + intros H. simplify_eq. constructor.
    + by inversion 1.
  - unfold res_bind. destruct (f a) as [b|e] eqn:Ea.
    + destruct (res_map f l) as [bs|e] eqn:El.
      * split.
        -- intros H. simplify_eq. constructor; [done|]. by apply IH.
        -- inversion 1 as [|? ? ? ? Hb Hbs]; subst.
           apply IH in Hbs. congruence.
      * split; [done|]. inversion 1 as [|? ? ? ? Hb Hbs]; subst.
        apply IH in Hbs. congruence.
    + split; [done|]. inversion 1; congruence.
Qed.

Lemma articles_of_sequence (data : pyval) (items new : list pyval) :
  items_of_data data = Ok (PList items) ->
  articles_of_data data = Ok new ->
  Forall2 article_of items new.
Proof.
  unfold articles_of_data. intros -> H. simpl in H.
  apply res_map_Forall2 in H.
  eapply Forall2_impl; [done|]. intros ? ?. by apply article_of_item_spec.
Qed.

Lemma fetches_payloads (self : NewsFeedManager) (todo : list str)
    (w w' : world) (news : list (list pyval)) :
  fetches self todo w news w' ->
  exists datas,
    payloads self todo w datas w' /\
    Forall2 (fun data new => articles_of_data data = Ok new) datas news.
Proof.
  induction 1 as [|sensor todo w new w1 news w2 Hs _ (datas & Hp & Hall)].
  - exists []. split; constructor.
  - unfold fetch_sensor, bind, lift in Hs.
    destruct (fetch_data self sensor w) as [[data|e] w0] eqn:E; [|done].
    simplify_eq. exists (data :: datas). split; [by econstructor|].
    by constructor.
Qed.

Lemma update_true_inv (self : NewsFeedManager) (w w' : world) :
  update_news_data self w = (Ok true, w') ->
  exists news w1,
    fetches self (sensors self) w news w1 /\
    save self (concat news) w1 = (Ok tt, w').
Proof.
  intros H.
  destruct (update_news_data_outcome self w)
    as (b & w0 & Hrun & Htrue & _).
  rewrite H in Hrun. simplify_eq. by apply Htrue.
Qed.

(** C5. After a successful refresh over sources whose payloads each hold
    an [attributes.rss.channel.item] sequence, the persisted collection is
    the concatenation of the per-source item lists, in source order and
    with item order kept, every item mapped to its Article: Published,
    Title and Link from [pubDate], [title] and [link], Description from
    [description], or the sentinel when the item has none. *)
Theorem refresh_persists_mapped_items
    (self : NewsFeedManager) (w w' : world) :
  update_news_data self w = (Ok true, w') ->
  exists datas w1,
    payloads self (sensors self) w datas w1 /\
    forall itemss,
      Forall2 (fun data items => items_of_data data = Ok (PList items))
        datas itemss ->
      exists articless,
        Forall2 (Forall2 article_of) itemss articless /\
        files w' !! output_file self
        = Some (File (dumps (PList (concat articless)))).
Proof.
  intros Hrun.
  apply update_true_inv in Hrun as (news & w1 & Hf & Hsave).
  apply fetches_payloads in Hf as (datas & Hp & Hall).
  exists datas, w1. split; [done|]. intros itemss Hitems.
  exists news. split; [|by apply save_ok_file in Hsave].
  clear -Hall Hitems. revert news Hall.
  induction Hitems as [|data items datas itemss Hi _ IH]; intros news Hall;
    inversion Hall as [|? new ? news' Hn Hrest]; subst; constructor.
  - by eapply articles_of_sequence.
  - by apply IH.
Qed.

(** ** Reading the store *)

Lemma get_article_info_unfold (self : NewsFeedManager) (t : str)
    (w w1 : world) (articles : list pyval) :
  get_file_contents self w = (Ok (PList articles), w1) ->
  get_article_info self t w = (first_with_title articles t, w1).
Proof.
  intros H. unfold get_article_info. by rewrite (bind_ok _ _ _ _ _ H).
Qed.

Lemma get_all_titles_unfold (self : NewsFeedManager)
    (w w1 : world) (articles : list pyval) :
  get_file_contents self w = (Ok (PList articles), w1) ->
  get_all_titles self w
  = (res_map (fun article => getitem article (lit "Title")) articles, w1).
Proof.
  intros H. unfold get_all_titles. by rewrite (bind_ok _ _ _ _ _ H).
Qed.

Lemma eq_str_true (v : pyval) (t : str) : eq_str v t = true <-> v = PStr t.
Proof.
  destruct v; simpl; try by split.
  rewrite bool_decide_eq_true. split; congruence.
Qed.

Lemma first_with_title_spec (t : str) (articles : list pyval) :
  Forall has_title articles ->
  (exists before a after,
     articles = before ++ a :: after /\
     title_is t a /\
     Forall (fun b => ~ title_is t b) before /\
     first_with_title articles t = Ok (Some a)) \/
  (Forall (fun b => ~ title_is t b) articles /\
   first_with_title articles t = Ok None).
Proof.
  induction 1 as [|a articles [x Hx] _ IH]; [right; by split|].
  simpl. rewrite Hx. simpl.
  destruct (eq_str x t) eqn:E.
  - apply eq_str_true in E as ->. left. exists [], a, articles.
    by repeat split.
  - assert (~ title_is t a) as Hne.
    { unfold title_is. rewrite Hx. intros ?. simplify_eq.
      assert (eq_str (PStr t) t = true) by by apply eq_str_true.
      congruence. }
    destruct IH as [(before & b & after & -> & Hb & Hbefore & Hfind)
                   | [Hnone Hfind]].
    + left. exists (a :: before), b, after.
      split; [done|]. split; [done|]. split; [by constructor|done].
    + right. split; [by constructor|done].
Qed.

(** C6. For every stored collection and every title [t], [get_article_info]
    returns the first Article, in collection order, whose Title is the
    string [t], and [None] when there is none, as on the empty
    collection. *)
Theorem find_by_title_returns_first_match
    (self : NewsFeedManager) (t : str) (w w1 : world)
    (articles : list pyval) :
  get_file_contents self w = (Ok (PList articles), w1) ->
  Forall has_title articles ->
  (exists before a after,
     articles = before ++ a :: after /\
     title_is t a /\
     Forall (fun b => ~ title_is t b) before /\
     get_article_info self t w = (Ok (Some a), w1)) \/
  (Forall (fun b => ~ title_is t b) articles /\
   get_article_info self t w = (Ok None, w1)).
Proof.
  intros Hload Hall. rewrite (get_article_info_unfold _ _ _ _ _ Hload).
  destruct (first_with_title_spec t articles Hall)
    as [(before & a & after & -> & Ha & Hb & ->) | [Hnone ->]].
  - left. by exists before, a, after.
  - by right.
Qed.

Lemma titles_of_articles (articles : list pyval) :
  Forall has_title articles <->
  exists titles,
    res_map (fun article => getitem article (lit "Title")) articles
    = Ok titles.
Proof.
  split.
  - induction 1 as [|a articles [x Hx] _ [titles IH]]; [by exists []|].
    exists (x :: titles). simpl. by rewrite Hx, IH.
  - intros [titles H]. apply res_map_Forall2 in H.
    induction H; constructor; [by eexists|done].
Qed.

(** C7. For every stored collection, [get_all_titles] and
    [get_file_contents] agree: as many titles as Articles, and the [i]-th
    title is the Title of the [i]-th Article; nothing is filtered out or
    moved. *)
Theorem titles_agree_with_dump
    (self : NewsFeedManager) (w w1 : world) (articles : list pyval) :
  get_file_contents self w = (Ok (PList articles), w1) ->
  Forall has_title articles ->
  exists titles,
    get_all_titles self w = (Ok titles, w1) /\
    length titles = length articles /\
    forall (i : nat) (a : pyval),
      articles !! i = Some a ->
      exists t, titles !! i = Some t /\ getitem a (lit "Title") = Ok t.
Proof.
  intros Hload Hall. rewrite (get_all_titles_unfold _ _ _ _ Hload).
  apply titles_of_articles in Hall as [titles Htitles].
  exists titles. rewrite Htitles. split; [done|].
  apply res_map_Forall2 in Htitles. split.
  - symmetry. by eapply Forall2_length.
  - intros i a Ha.
    destruct (Forall2_lookup_l _ _ _ _ _ Htitles Ha) as (t & Ht & Hat).
    by exists t.
Qed.

(** ** Text output *)

Lemma render_article_block (a : Article) :
  render_article (article_value a) = Ok (text_block a).
Proof.
  reflexivity.
Qed.

Lemma render_collection (articles : list Article) :
  res_map render_article (List.map article_value articles)
  = Ok (List.map text_block articles).
Proof.
  induction articles as [|a articles IH]; [done|].
  change (res_map render_article (List.map article_value (a :: articles)))
    with (res_bind (render_article (article_value a)) (fun b =>
          res_bind (res_map render_article (List.map article_value articles))
            (fun bs => Ok (b :: bs)))).
  by rewrite render_article_block, IH.
Qed.

Lemma join_blank_line (articles : list Article) :
  join [10; 10] (List.map text_block articles) = text_dump articles.
Proof.
  induction articles as [|a [|b articles] IH]; [done..|].
  change (text_dump (a :: b :: articles))
    with (text_block a ++ [10] ++ [10] ++ text_dump (b :: articles)).
  rewrite <- IH. done.
Qed.

(** C8. In text mode, dumping a stored collection renders each Article as
    its four [field: value] lines, Published, Title, Description, Link in
    this order, and puts exactly one empty line between two consecutive
    blocks. *)
Theorem text_dump_of_stored_collection
    (self : NewsFeedManager) (w w1 : world) (articles : list Article) :
  get_file_contents self w = (Ok (collection_value articles), w1) ->
  get_file_data self (lit "text") w = (Ok (PStr (text_dump articles)), w1).
Proof.
  intros Hload. unfold get_file_data.
  rewrite (bind_ok _ _ _ _ _ Hload).
  destruct (decide (lit "text" = lit "text")) as [_|]; [|done].
  destruct articles as [|a articles]; [done|].
  change (truthy (collection_value (a :: articles))) with true.
  cbv iota. unfold bind, lift, iterate, collection_value.
  by rewrite render_collection, join_blank_line.
Qed.

(** ** No shape validation on load *)

Lemma get_file_contents_verbatim (self : NewsFeedManager) (w : world)
    (content : str) (v : pyval) :
  files w !! output_file self = Some (File content) ->
  refusal w Reading (output_file self) = None ->
  loads content = Ok v ->
  get_file_contents self w = (Ok v, w).
Proof.
  intros Hfile Hopen Hv.
  by rewrite (get_file_contents_text _ _ _ Hfile Hopen), Hv.
Qed.

Lemma get_all_titles_after_load (self : NewsFeedManager) (w w1 : world)
    (v : pyval) :
  get_file_contents self w = (Ok v, w1) ->
  get_all_titles self w
  = (res_bind (iterate v)
       (res_map (fun article => getitem article (lit "Title"))), w1).
Proof.
  intros H. unfold get_all_titles. rewrite (bind_ok _ _ _ _ _ H).
  unfold bind, lift. by destruct (iterate v).
Qed.

(** The values [get_all_titles] can list: a list of objects with a [Title]
    key each, and the two empty values that iterate like the empty list. *)
Lemma titles_listable (v : pyval) :
  (exists titles,
     res_bind (iterate v)
       (res_map (fun article => getitem article (lit "Title")))
     = Ok titles) <->
  listable v.
Proof.
  destruct v as [| | | |[|c s]|elements|[|[k x] d]]; simpl;
    try (split; [by intros [? ?]|done]);
    try (split; [done|intros _; by exists []]).
  symmetry. apply titles_of_articles.
Qed.

(** C10, as the code has it.  Load does not validate the shape of
    well-formed JSON: there are file contents, a non-empty array whose
    element has no [Title], that [get_file_contents] returns as parsed and
    on which [get_all_titles] raises instead of returning a list.  The
    title listing returns a list exactly when the value load returned, the
    parsed file or the empty collection that stands for a missing or
    rejected one, is a list of objects with a [Title] key each, an empty
    object or an empty string; what load raises, the listing raises. *)
Theorem load_does_not_validate_shape (self : NewsFeedManager) :
  (2 <= recursion_limit)%nat ->
  (exists content element,
     loads content = Ok (PList [element]) /\
     ~ has_title element /\
     forall w,
       files w !! output_file self = Some (File content) ->
       refusal w Reading (output_file self) = None ->
       get_file_contents self w = (Ok (PList [element]), w) /\
       get_all_titles self w = (Raise (KeyError (lit "Title")), w)) /\
  (forall w v w1,
     get_file_contents self w = (Ok v, w1) ->
     (exists titles, get_all_titles self w = (Ok titles, w1)) <->
     listable v) /\
  (forall w e w1,
     get_file_contents self w = (Raise e, w1) ->
     get_all_titles self w = (Raise e, w1)).
Proof.
  intros Hroom. split; [|split].
  - exists [91; 123; 34; 76; 105; 110; 107; 34; 58; 32; 34; 120; 34; 125; 93],
      (PDict [(lit "Link", PStr (lit "x"))]).
    split.
    { unfold loads. by destruct recursion_limit as [|[|d]]; [lia..|]. }
    split.
    + by intros [x Hx].
    + intros w Hfile Hopen.
      assert (get_file_contents self w
              = (Ok (PList [PDict [(lit "Link", PStr (lit "x"))]]), w))
        as Hload.
      { eapply get_file_contents_verbatim; [done..|].
        unfold loads. by destruct recursion_limit as [|[|d]]; [lia..|]. }
      split; [done|].
      by rewrite (get_all_titles_unfold _ _ _ _ Hload).
  - intros w v w1 Hload.
    rewrite (get_all_titles_after_load _ _ _ _ Hload), <- titles_listable.
    split.
    + intros [titles H]. exists titles. congruence.
    + intros [titles ->]. by exists titles.
  - intros w e w1 Hload. unfold get_all_titles.
    by rewrite (bind_raise _ _ _ _ _ Hload).
Qed.

End Queries.
End Queries.

Module Credential.
Import Py Json Sys NewsFeed Model Refresh Store Queries.

Section Credential.
Context {RT : Runtime}.

Lemma env_blind_ret {A} (a : A) : env_blind (ret a).
Proof. done. Qed.

Lemma env_blind_lift {A} (r : res A) : env_blind (lift r).
Proof. done. Qed.

Lemma env_blind_bind {A B} (m : M A) (k : A -> M B) :
  env_blind m -> (forall a, env_blind (k a)) -> env_blind (bind m k).
Proof.
  intros Hm Hk env w Halike. unfold bind.
  destruct (Hm env w Halike) as (Hrun & Hendpoint & Henviron).
  rewrite Hrun.
  destruct (m w) as [[a|e] w1]; simpl in *; [|done].
  assert (answers_alike w1 env (environ w1)) as Halike1.
  { intros n r. rewrite Hendpoint, Henviron. apply Halike. }
  destruct (Hk a env w1 Halike1) as (Hrun1 & Hendpoint1 & Henviron1).
  split; [done|]. split; congruence.
Qed.

Lemma env_blind_try_except {A} (body : M A)
    (handlers : list (cls * (exn -> M A))) :
  env_blind body ->
  Forall (fun h => forall e, env_blind (h.2 e)) handlers ->
  env_blind (try_except body handlers).
Proof.
  intros Hbody Hhandlers env w Halike. unfold try_except.
  destruct (Hbody env w Halike) as (Hrun & Hendpoint & Henviron).
  rewrite Hrun.
  destruct (body w) as [[a|e] w1]; simpl in *; [done|].
  destruct (List.find _ handlers) as [h|] eqn:Hfind; [|done].
  apply List.find_some in Hfind as [Hin _].
  rewrite List.Forall_forall in Hhandlers.
  assert (answers_alike w1 env (environ w1)) as Halike1.
  { intros n r. rewrite Hendpoint, Henviron. apply Halike. }
  destruct (Hhandlers h Hin e env w1 Halike1)
    as (Hrun1 & Hendpoint1 & Henviron1).
  split; [done|]. split; congruence.
Qed.

Lemma env_blind_print (line : str) : env_blind (print line).
Proof. done. Qed.

(** The one place where the environment comes in: [requests] is handed
    it. *)
Lemma env_blind_requests_get (u : str) (hs : list (str * str)) :
  env_blind (requests_get u hs).
Proof.
  intros env w Halike. unfold requests_get. simpl. by rewrite Halike.
Qed.

Lemma env_blind_open_w (path : str) : env_blind (open_w path).
Proof.
  intros env w _. unfold open_w. simpl.
  by destruct (files w !! path) as [[|]|], (refusal w Creating path).
Qed.

Lemma env_blind_write (path chunk : str) : env_blind (write path chunk).
Proof.
  intros env w _. unfold write. simpl.
  by destruct (files w !! path) as [[|]|], (refusal w Writing path).
Qed.

Lemma env_blind_fetch_all (self : NewsFeedManager) (todo : list str) :
  forall articles, env_blind (fetch_all self todo articles).
Proof.
  induction todo as [|sensor todo IH]; intros articles; simpl.
  - apply env_blind_ret.
  - apply env_blind_bind; [|done].
    unfold fetch_sensor, fetch_data.
    repeat (apply env_blind_bind; [|intros ?]);
      first [apply env_blind_requests_get | apply env_blind_lift].
Qed.

Lemma env_blind_update_news_data (self : NewsFeedManager) :
  env_blind (update_news_data self).
Proof.
  unfold update_news_data. apply env_blind_try_except.
  - apply env_blind_bind; [apply env_blind_fetch_all|intros articles].
    apply env_blind_bind; [|intros ?; apply env_blind_ret].
    unfold save, json_dump.
    apply env_blind_bind; [apply env_blind_open_w|intros ?].
    apply env_blind_write.
  - constructor; [|constructor]. intros e. simpl.
    apply env_blind_bind; [apply env_blind_print|intros ?].
    apply env_blind_ret.
Qed.

Lemma init_cases (sensors : list str) (output_file : str) (w : world) :
  __init__ sensors output_file w =
  match environ w !! lit "HA_TOKEN" with
  | Some token =>
      (Ok {| ha_token := token; sensors := sensors;
             output_file := output_file |}, w)
  | None => (Raise RuntimeError, w)
  end.
Proof.
  unfold __init__, _load_ha_token, bind, getenv.
  by destruct (environ w !! lit "HA_TOKEN").
Qed.

(** C9, as the code has it.  The manager takes no credential from its
    caller: its constructor reads [HA_TOKEN] from the process environment,
    and fails when the variable is not set.  From then on the token is an
    opaque string, and the program reads no other variable; but refresh
    calls [requests.get], which consults the environment on its own.  So
    refresh on a constructed manager runs alike under two environments
    where [requests] answers alike, and construction followed by refresh
    depends on the environment through [HA_TOKEN] and through [requests]
    alone. *)
Theorem credential_read_at_construction_only :
  (forall sensors output_file w,
     __init__ sensors output_file w =
     match environ w !! lit "HA_TOKEN" with
     | Some token =>
         (Ok {| ha_token := token; sensors := sensors;
                output_file := output_file |}, w)
     | None => (Raise RuntimeError, w)
     end) /\
  (forall self env w,
     answers_alike w env (environ w) ->
     update_news_data self (with_environ env w)
     = (fst (update_news_data self w),
        with_environ env (snd (update_news_data self w)))) /\
  (forall sensors output_file env1 env2 w,
     env1 !! lit "HA_TOKEN" = env2 !! lit "HA_TOKEN" ->
     answers_alike w env1 env2 ->
     fst (construct_and_refresh sensors output_file (with_environ env1 w))
     = fst (construct_and_refresh sensors output_file (with_environ env2 w))
     /\
     files (snd (construct_and_refresh sensors output_file
                   (with_environ env1 w)))
     = files (snd (construct_and_refresh sensors output_file
                     (with_environ env2 w)))).
Proof.
  split; [apply init_cases|]. split.
  { intros self env w Halike.
    by apply (env_blind_update_news_data self env w). }
  intros sensors output_file env1 env2 w Henv Halike.
  unfold construct_and_refresh, bind. rewrite !init_cases. simpl.
  rewrite <- Henv. destruct (env1 !! lit "HA_TOKEN") as [token|]; [|done].
  set (self := {| ha_token := token; sensors := sensors;
                  output_file := output_file |}).
  destruct (env_blind_update_news_data self env1 (with_environ env2 w))
    as (Hrun & _); [done|].
  change (with_environ env1 (with_environ env2 w))
    with (with_environ env1 w) in Hrun.
  by rewrite Hrun.
Qed.

End Credential.
End Credential.

Module Scenarios.
Import Py Json Sys NewsFeed Model Scenario Refresh Store Queries Credential.

(** The outcome of a refresh whose second source is down. *)
Lemma refresh_outcome_scenario :
  exists (b : bool) (w' : world),
    update_news_data manager (fresh main_down) = (Ok b, w') /\
    (b = true <->
     exists news w1,
       fetches manager (sensors manager) (fresh main_down) news w1 /\
       save manager (concat news) w1 = (Ok tt, w')) /\
    (b = false ->
     exists e w1,
       w' = snd (print (lit "Error updating news data: " ++ exn_str e) w1)).
Proof. exact (refresh_true_only_if_all_succeed manager (fresh main_down)). Defined.

(** The store file is absent, two sources are configured and the second
    answers with HTTP 500: refresh returns [false], the file stays
    absent. *)
Lemma failed_fetch_scenario :
  exists w',
    update_news_data manager (fresh main_down) = (Ok false, w') /\
    files w' = files (fresh main_down).
Proof.
  eapply (failed_fetch_leaves_store_untouched manager (fresh main_down)
            [toronto] main_feed []).
  - reflexivity.
  - econstructor; [vm_compute; reflexivity|constructor].
  - vm_compute. reflexivity.
Defined.

(** An absent file, and a file that does not hold JSON; a file the system
    does not let the program read. *)
Lemma degraded_load_scenarios :
  (exists w',
     get_file_contents manager (fresh both_up) = (Ok (PList []), w') /\
     files w' = files (fresh both_up)) /\
  (exists w',
     get_file_contents manager (with_file (lit "{oops") (fresh both_up))
     = (Ok (PList []), w') /\
     files w' = files (with_file (lit "{oops") (fresh both_up))) /\
  get_file_contents manager
    (refusing Reading PermissionError (with_file (lit "[]") (fresh both_up)))
  = (Raise PermissionError,
     refusing Reading PermissionError (with_file (lit "[]") (fresh both_up))).
Proof.
  split; [|split].
  - apply (proj1 (load_absorbs_missing_file_and_decode_error_only manager
                    (fresh both_up))).
    vm_compute. reflexivity.
  - apply (proj1 (proj2 (load_absorbs_missing_file_and_decode_error_only
                           manager (with_file (lit "{oops") (fresh both_up))))
             (lit "{oops")).
    + vm_compute. reflexivity.
    + vm_compute. reflexivity.
  - apply (proj1 (proj2 (proj2
             (load_absorbs_missing_file_and_decode_error_only manager
                (refusing Reading PermissionError
                   (with_file (lit "[]") (fresh both_up))))))).
    + vm_compute. reflexivity.
    + reflexivity.
    + reflexivity.
Defined.

(** Files that are absent or hold no JSON, and still make the load raise:
    a thousand and one opening brackets, which no limit makes a JSON
    document, raise [RecursionError]; so does the same document with its
    brackets closed; a path under a parent that is a file raises
    [NotADirectoryError]; bytes that are no text raise
    [UnicodeDecodeError]. *)
Lemma load_raises_on_degraded_files :
  ((forall (d : nat) (v : pyval), decode d deep_text <> Ok v) /\
   get_file_contents manager (with_file deep_text (fresh both_up))
   = (Raise RecursionError, with_file deep_text (fresh both_up))) /\
  get_file_contents manager (with_file deep_document (fresh both_up))
  = (Raise RecursionError, with_file deep_document (fresh both_up)) /\
  (files (refusing Reading NotADirectoryError (fresh both_up)) !! news_json
   = None /\
   get_file_contents manager
     (refusing Reading NotADirectoryError (fresh both_up))
   = (Raise NotADirectoryError,
      refusing Reading NotADirectoryError (fresh both_up))) /\
  get_file_contents manager
    (refusing Reading UnicodeDecodeError (with_file [] (fresh both_up)))
  = (Raise UnicodeDecodeError,
     refusing Reading UnicodeDecodeError (with_file [] (fresh both_up))).
Proof.
  split; [split|split; [|split; [split|]]].
  - intros d v. apply (JsonTotal.decode_brackets d 1000 v).
  - rewrite (get_file_contents_text manager _ deep_text)
      by (vm_compute; reflexivity).
    change (loads deep_text) with (decode 1000 (repeat 91 1001)).
    rewrite <- (app_nil_r (repeat 91 1001)).
    by rewrite (JsonTotal.decode_too_deep 1000 []).
  - rewrite (get_file_contents_text manager _ deep_document)
      by (vm_compute; reflexivity).
    change (loads deep_document)
      with (decode 1000 (repeat 91 1001 ++ repeat 93 1001)).
    by rewrite (JsonTotal.decode_too_deep 1000 (repeat 93 1001)).
  - vm_compute. reflexivity.
  - vm_compute. reflexivity.
  - vm_compute. reflexivity.
Qed.

(** The two Articles of the specification, saved and loaded. *)
Lemma round_trip_scenario :
  save manager (List.map article_value [article_a; article_b])
    (fresh both_up) = (Ok tt, saved) /\
  get_file_contents manager saved
  = (Ok (collection_value [article_a; article_b]), saved).
Proof.
  assert (save manager (List.map article_value [article_a; article_b])
            (fresh both_up) = (Ok tt, saved)) as Hsave
    by (vm_compute; reflexivity).
  split; [exact Hsave|].
  apply (save_then_load_round_trip manager [article_a; article_b]
           (fresh both_up) saved).
  - reflexivity.
  - exact Hsave.
  - reflexivity.
  - vm_compute. lia.
Defined.

(** Two sources with one item each, the first without a description. *)
Lemma refresh_scenario :
  update_news_data manager (fresh both_up) = (Ok true, refreshed) /\
  get_file_contents manager refreshed
  = (Ok (collection_value [article_a; article_b]), refreshed) /\
  exists datas w1,
    payloads manager (sensors manager) (fresh both_up) datas w1 /\
    forall itemss,
      Forall2 (fun data items => items_of_data data = Ok (PList items))
        datas itemss ->
      exists articless,
        Forall2 (Forall2 article_of) itemss articless /\
        files refreshed !! output_file manager
        = Some (File (dumps (PList (concat articless)))).
Proof.
  assert (update_news_data manager (fresh both_up) = (Ok true, refreshed))
    as Hrun by (vm_compute; reflexivity).
  split; [exact Hrun|]. split; [vm_compute; reflexivity|].
  exact (refresh_persists_mapped_items manager (fresh both_up) refreshed Hrun).
Defined.

(** Three stored Articles, the last two titled [A]: the lookup returns the
    second of the three. *)
Lemma find_by_title_scenario :
  (exists before a after,
     List.map article_value [article_b; article_a; article_a']
     = before ++ a :: after /\
     title_is (lit "A") a /\
     Forall (fun b => ~ title_is (lit "A") b) before /\
     get_article_info manager (lit "A") stocked = (Ok (Some a), stocked)) \/
  (Forall (fun b => ~ title_is (lit "A") b)
     (List.map article_value [article_b; article_a; article_a']) /\
   get_article_info manager (lit "A") stocked = (Ok None, stocked)).
Proof.
  apply find_by_title_returns_first_match.
  - vm_compute. reflexivity.
  - repeat constructor; eexists; reflexivity.
Defined.

Lemma titles_scenario :
  exists titles,
    get_all_titles manager stocked = (Ok titles, stocked) /\
    length titles
    = length (List.map article_value [article_b; article_a; article_a']) /\
    forall (i : nat) (a : pyval),
      List.map article_value [article_b; article_a; article_a'] !! i = Some a ->
      exists t, titles !! i = Some t /\ getitem a (lit "Title") = Ok t.
Proof.
  apply titles_agree_with_dump.
  - vm_compute. reflexivity.
  - repeat constructor; eexists; reflexivity.
Defined.

(** The text dump of the refreshed store of the specification. *)
Lemma text_dump_scenario :
  get_file_data manager (lit "text") refreshed
  = (Ok (PStr (text_dump [article_a; article_b])), refreshed).
Proof.
  apply text_dump_of_stored_collection.
  vm_compute. reflexivity.
Defined.

(** A file whose only element carries no [Title]. *)
Lemma unvalidated_shape_scenario :
  (2 <= recursion_limit)%nat /\
  exists content element,
    loads content = Ok (PList [element]) /\
    ~ has_title element /\
    forall w,
      files w !! output_file manager = Some (File content) ->
      refusal w Reading (output_file manager) = None ->
      get_file_contents manager w = (Ok (PList [element]), w) /\
      get_all_titles manager w = (Raise (KeyError (lit "Title")), w).
Proof.
  assert (2 <= recursion_limit)%nat as Hroom by (vm_compute; lia).
  split; [exact Hroom|].
  exact (proj1 (load_does_not_validate_shape manager Hroom)).
Defined.

(** Title listing returns a list on files that do not parse to a list of
    objects with a [Title]: on a file that holds an empty object, which
    load returns as it is, and on an absent file. *)
Lemma titles_listed_without_a_list :
  (get_file_contents manager empty_object = (Ok (PDict []), empty_object) /\
   get_all_titles manager empty_object = (Ok [], empty_object)) /\
  (files (fresh both_up) !! news_json = None /\
   fst (get_all_titles manager (fresh both_up)) = Ok []).
Proof. repeat split; vm_compute; reflexivity. Qed.

(** Two environments that agree on [HA_TOKEN] and differ elsewhere. *)
Lemma same_token_scenario :
  fst (construct_and_refresh [toronto; main_feed] news_json
         (with_environ {[ lit "HA_TOKEN" := lit "secret" ]} (fresh both_up)))
  = fst (construct_and_refresh [toronto; main_feed] news_json
           (with_environ
              {[ lit "HA_TOKEN" := lit "secret"; lit "HOME" := lit "/root" ]}
              (fresh both_up))) /\
  files (snd (construct_and_refresh [toronto; main_feed] news_json
                (with_environ {[ lit "HA_TOKEN" := lit "secret" ]}
                   (fresh both_up))))
  = files (snd (construct_and_refresh [toronto; main_feed] news_json
                  (with_environ
                     {[ lit "HA_TOKEN" := lit "secret";
                        lit "HOME" := lit "/root" ]}
                     (fresh both_up)))).
Proof.
  apply (proj2 (proj2 credential_read_at_construction_only)).
  - vm_compute. reflexivity.
  - intros n r. reflexivity.
Defined.

(** Two process environments, the same call.  With one token the refresh
    succeeds, with the other it fails: the credential comes from the
    environment.  And with the credential fixed, a proxy variable changes
    the outcome: [requests] reads the environment too. *)
Lemma refresh_depends_on_environment :
  (fst (construct_and_refresh [toronto; main_feed] news_json
          (with_environ {[ lit "HA_TOKEN" := lit "secret" ]} (fresh both_up)))
   = Ok true /\
   fst (construct_and_refresh [toronto; main_feed] news_json
          (with_environ {[ lit "HA_TOKEN" := lit "guess" ]} (fresh both_up)))
   = Ok false) /\
  (fst (update_news_data manager
          (with_environ {[ lit "HA_TOKEN" := lit "secret" ]} proxied))
   = Ok true /\
   fst (update_news_data manager
          (with_environ
             {[ lit "HA_TOKEN" := lit "secret";
                lit "http_proxy" := lit "http://127.0.0.1:9" ]} proxied))
   = Ok false).
Proof. repeat split; vm_compute; reflexivity. Qed.

End Scenarios.

Module RefreshMore.
Import Py Json Sys NewsFeed Model Scenario Refresh Store Queries Credential.

Section RefreshMore.
Context {RT : Runtime}.

(** ** Calls *)

Lemma fetch_data_calls (self : NewsFeedManager) (sensor : str) (w w' : world)
    (r : res pyval) :
  fetch_data self sensor w = (r, w') ->
  calls w' = calls w ++ [request_for self sensor].
Proof.
  unfold fetch_data, bind, requests_get, lift. intros H.
  destruct (endpoint w (environ w) (length (calls w)) _) as [response|e];
    simpl in H.
  - destruct (raise_for_status response); by simplify_eq.
  - by simplify_eq.
Qed.

Lemma fetch_sensor_calls (self : NewsFeedManager) (sensor : str)
    (w w' : world) (r : res (list pyval)) :
  fetch_sensor self sensor w = (r, w') ->
  calls w' = calls w ++ [request_for self sensor].
Proof.
  unfold fetch_sensor, bind, lift. intros H.
  destruct (fetch_data self sensor w) as [[data|e] w1] eqn:E;
    simplify_eq; by eapply fetch_data_calls.
Qed.

Lemma fetches_calls (self : NewsFeedManager) (todo : list str)
    (w w' : world) (news : list (list pyval)) :
  fetches self todo w news w' ->
  calls w' = calls w ++ List.map (request_for self) todo.
Proof.
  induction 1 as [|? ? ? ? ? ? ? Hs _ IH]; simpl; [by rewrite app_nil_r|].
  apply fetch_sensor_calls in Hs. rewrite IH, Hs. by rewrite <- app_assoc.
Qed.

Lemma save_calls (self : NewsFeedManager) (articles : list pyval)
    (w w' : world) (r : res unit) :
  save self articles w = (r, w') -> calls w' = calls w.
Proof.
  destruct r as [[]|e]; intros H.
  - by apply save_ok in H as [_ ->].
  - by apply save_raise in H as (_ & ? & _).
Qed.

(** X3. A refresh calls [requests.get] once for each source, in the order
    of the sensor list, with the state URL of the source and the bearer
    token, and stops at the first source that fails.  After a successful
    refresh the calls are those for all the sources; after a failed fetch,
    those for the sources up to the failing one, and none for the sources
    behind it; when the fetches succeed and the save fails, those for all
    the sources. *)
Theorem refresh_calls_stop_at_first_failure
    (self : NewsFeedManager) (w : world) :
  (forall w',
     update_news_data self w = (Ok true, w') ->
     calls w' = calls w ++ List.map (request_for self) (sensors self)) /\
  (forall fetched sensor remaining news w1 w2 e,
     sensors self = fetched ++ sensor :: remaining ->
     fetches self fetched w news w1 ->
     fetch_sensor self sensor w1 = (Raise e, w2) ->
     exists w',
       update_news_data self w = (Ok false, w') /\
       calls w'
       = calls w ++ List.map (request_for self) (fetched ++ [sensor])) /\
  (forall news w1 w2 e,
     fetches self (sensors self) w news w1 ->
     save self (concat news) w1 = (Raise e, w2) ->
     exists w',
       update_news_data self w = (Ok false, w') /\
       calls w' = calls w ++ List.map (request_for self) (sensors self)).
Proof.
  split; [|split].
  - intros w' Hrun.
    apply update_true_inv in Hrun as (news & w1 & Hf & Hsave).
    apply fetches_calls in Hf. apply save_calls in Hsave. congruence.
  - intros fetched sensor remaining news w1 w2 e Hs Hf Hr.
    assert (fetch_all self (sensors self) [] w = (Raise e, w2)) as Hall.
    { apply fetch_all_raise.
      by exists fetched, sensor, remaining, news, w1. }
    rewrite update_news_data_unfold. unfold bind at 1. rewrite Hall.
    eexists. split; [done|]. simpl.
    apply fetches_calls in Hf. apply fetch_sensor_calls in Hr.
    rewrite Hr, Hf, List.map_app. by rewrite <- app_assoc.
  - intros news w1 w2 e Hf Hsave.
    assert (fetch_all self (sensors self) [] w = (Ok (concat news), w1))
      as Hall by (apply fetch_all_ok; by exists news).
    rewrite update_news_data_unfold. unfold bind at 1. rewrite Hall.
    unfold bind at 1. rewrite Hsave.
    eexists. split; [done|]. simpl.
    apply fetches_calls in Hf. apply save_calls in Hsave. congruence.
Qed.

(** ** What a refresh writes *)

Lemma save_files (self : NewsFeedManager) (articles : list pyval)
    (w w' : world) :
  save self articles w = (Ok tt, w') ->
  files w' = <[output_file self := File (dumps (PList articles))]> (files w).
Proof. intros H. by apply save_ok in H as [_ ->]. Qed.

(** X1. A successful refresh replaces the backing file and changes nothing
    else: the file store afterwards is the one before with [output_file]
    bound to the serialization of the fetched articles; every other path is
    as it was, and nothing of the old contents is kept. *)
Theorem refresh_replaces_the_file_only
    (self : NewsFeedManager) (w w' : world) :
  update_news_data self w = (Ok true, w') ->
  exists news w1,
    fetches self (sensors self) w news w1 /\
    files w'
    = <[output_file self := File (dumps (PList (concat news)))]> (files w) /\
    forall path, path <> output_file self -> files w' !! path = files w !! path.
Proof.
  intros Hrun.
  apply update_true_inv in Hrun as (news & w1 & Hf & Hsave).
  exists news, w1. split; [done|].
  apply save_files in Hsave.
  pose proof (fetches_frame _ _ _ _ _ Hf) as (Hfiles & _).
  rewrite Hsave, Hfiles. split; [done|].
  intros path Hpath. by rewrite lookup_insert_ne.
Qed.

(** X2. When [output_file] names a directory the refresh fails whatever the
    sources answer: it returns [false] and the file store is as it was. *)
Theorem refresh_into_a_directory_fails
    (self : NewsFeedManager) (w : world) :
  files w !! output_file self = Some Directory ->
  exists w',
    update_news_data self w = (Ok false, w') /\ files w' = files w.
Proof.
  intros Hdir. rewrite update_news_data_unfold. unfold bind at 1.
  destruct (fetch_all self (sensors self) [] w) as [[articles|e] w1] eqn:Ef.
  - pose proof (fetch_all_frame _ _ _ _ _ _ Ef) as (Hfiles & _).
    unfold bind at 1, save at 1, bind at 1, open_w at 1.
    rewrite Hfiles, Hdir.
    eexists. split; [done|]. done.
  - pose proof (fetch_all_frame _ _ _ _ _ _ Ef) as (Hfiles & _).
    eexists. split; [done|]. done.
Qed.

(** X4. With no source configured a refresh calls no one and goes straight
    to the save: it returns [true] exactly when the store file can be
    written, that is when the path is no directory and the system refuses
    neither to open nor to write it, and the file then holds the empty
    collection, the text [[]], whatever it held before. *)
Theorem refresh_without_sources_writes_empty_collection
    (self : NewsFeedManager) (w : world) :
  sensors self = [] ->
  exists w',
    update_news_data self w = (Ok (writable w (output_file self)), w') /\
    calls w' = calls w /\
    (writable w (output_file self) = true ->
     files w' = <[output_file self := File (lit "[]")]> (files w)).
Proof.
  intros Hs. rewrite update_news_data_unfold, Hs. simpl fetch_all.
  unfold bind at 1, ret at 1. unfold bind at 1.
  destruct (save self [] w) as [[[]|e] w1] eqn:Hsave.
  - exists w1. pose proof (save_calls _ _ _ _ _ Hsave) as Hcalls.
    apply save_ok in Hsave as [-> ->]. by repeat split.
  - eexists. pose proof (save_calls _ _ _ _ _ Hsave) as Hcalls.
    apply save_raise in Hsave as (-> & _). by repeat split.
Qed.

(** ** The shape of a payload *)

(** X5. The [item] of a payload is iterated whatever it is.  An object or a
    string that is not empty makes the source fail with [TypeError]; an
    empty object or string contributes no article; a number, a boolean or
    [null] fails with [TypeError]. *)
Theorem item_other_than_a_list
    (data : pyval) (item : pyval) :
  items_of_data data = Ok item ->
  match item with
  | PList items => articles_of_data data = res_map article_of_item items
  | PDict [] | PStr [] => articles_of_data data = Ok []
  | _ => articles_of_data data = Raise TypeError
  end.
Proof.
  intros H. unfold articles_of_data. rewrite H. simpl.
  destruct item as [| | | |[|c s]|l|[|[k v] d]]; done.
Qed.

Lemma article_of_item_complete (item : pyval) :
  (exists article, article_of_item item = Ok article) <-> complete_item item.
Proof.
  split.
  - intros [article H]. apply article_of_item_spec in H
      as (fields & p & t & l & -> & Hp & Ht & Hl & _).
    exists fields. rewrite Hp, Ht, Hl. by repeat split.
  - intros (fields & -> & [p Hp] & [t Ht] & [l Hl]).
    eexists. apply article_of_item_spec.
    by exists fields, p, t, l.
Qed.

(** X6. The items of a source are mapped all or none: the comprehension
    succeeds exactly when every item is an object with [pubDate], [title]
    and [link], and then yields one article per item, none dropped and none
    merged. *)
Theorem items_mapped_all_or_none (items : list pyval) :
  ((exists articles, res_map article_of_item items = Ok articles) <->
   Forall complete_item items) /\
  (forall articles,
     res_map article_of_item items = Ok articles ->
     length articles = length items).
Proof.
  split.
  - split.
    + intros [articles H]. apply res_map_Forall2 in H.
      induction H as [|item article ? ? Hi _ IH]; constructor; [|done].
      apply article_of_item_complete. by exists article.
    + induction 1 as [|item items Hi _ [articles IH]]; [by exists []|].
      apply article_of_item_complete in Hi as [article Hi].
      exists (article :: articles). simpl. by rewrite Hi, IH.
  - intros articles H. apply res_map_Forall2 in H.
    symmetry. by eapply Forall2_length.
Qed.

End RefreshMore.
End RefreshMore.

Module QueriesMore.
Import Py Json Sys NewsFeed Model Scenario Refresh Store Queries Credential
  RefreshMore.

Section QueriesMore.
Context {RT : Runtime}.

(** ** Queries only read *)

Lemma read_only_ret {A} (a : A) : read_only (ret a).
Proof. done. Qed.

Lemma read_only_lift {A} (r : res A) : read_only (lift r).
Proof. done. Qed.

Lemma read_only_print (line : str) : read_only (print line).
Proof. done. Qed.

Lemma read_only_bind {A B} (m : M A) (k : A -> M B) :
  read_only m -> (forall a, read_only (k a)) -> read_only (bind m k).
Proof.
  intros Hm Hk w. unfold bind. specialize (Hm w).
  destruct (m w) as [[a|e] w1]; simpl in *; [|done].
  destruct Hm as (? & ? & ? & ?), (Hk a w1) as (? & ? & ? & ?).
  repeat split; congruence.
Qed.

Lemma read_only_get_file_contents (self : NewsFeedManager) :
  read_only (get_file_contents self).
Proof.
  intros w. rewrite get_file_contents_cases.
  destruct (fst (read_file (output_file self) w)) as [content|e].
  - destruct (loads content) as [v|e]; [done|].
    by destruct (isinstance e CJSONDecodeError).
  - destruct (isinstance e CFileNotFoundError); [done|].
    by destruct (isinstance e CJSONDecodeError).
Qed.

Lemma read_only_get_all_titles (self : NewsFeedManager) :
  read_only (get_all_titles self).
Proof.
  unfold get_all_titles.
  repeat (apply read_only_bind; [|intros ?]);
    first [apply read_only_get_file_contents | apply read_only_lift].
Qed.

Lemma read_only_get_article_info (self : NewsFeedManager) (t : str) :
  read_only (get_article_info self t).
Proof.
  unfold get_article_info.
  repeat (apply read_only_bind; [|intros ?]);
    first [apply read_only_get_file_contents | apply read_only_lift].
Qed.

(** X7. The query operations only read: whatever they return or raise,
    [list_titles], [get_article_details] and [get_file_data] leave the file
    store, the environment and the network as they found them and call
    no one. *)
Theorem queries_only_read
    (manager : NewsFeedManager) (title output_mode : str) :
  read_only (list_titles manager output_mode) /\
  read_only (get_article_details manager title output_mode) /\
  read_only (get_file_data manager output_mode).
Proof.
  split; [|split].
  - unfold list_titles.
    apply read_only_bind; [apply read_only_get_all_titles|intros titles].
    destruct (decide _); [|apply read_only_ret].
    apply read_only_bind; [apply read_only_lift|intros ?; apply read_only_ret].
  - unfold get_article_details.
    apply read_only_bind; [apply read_only_get_article_info|intros info].
    destruct (decide _); [|apply read_only_ret].
    destruct info as [article|]; [|apply read_only_ret].
    destruct (truthy article); [|apply read_only_ret].
    apply read_only_bind; [apply read_only_lift|intros ?; apply read_only_ret].
  - unfold get_file_data.
    apply read_only_bind; [apply read_only_get_file_contents|intros v].
    destruct (decide _).
    + destruct (truthy v); [|apply read_only_ret].
      repeat (apply read_only_bind; [apply read_only_lift|intros ?]).
      apply read_only_ret.
    + apply read_only_bind; [apply read_only_lift|intros ?; apply read_only_ret].
Qed.

(** ** Errors that are not absorbed *)

Lemma get_file_contents_directory (self : NewsFeedManager) (w : world) :
  files w !! output_file self = Some Directory ->
  get_file_contents self w = (Raise IsADirectoryError, w).
Proof. intros H. by rewrite get_file_contents_cases, read_file_cases, H. Qed.

(** X8. Only a missing file and a decoding error are turned into the empty
    collection.  When [output_file] names a directory, [get_file_contents]
    raises [IsADirectoryError], and so does every query built on it, in
    either output mode. *)
Theorem load_error_reaches_the_caller
    (manager : NewsFeedManager) (title output_mode : str) (w : world) :
  files w !! output_file manager = Some Directory ->
  get_file_contents manager w = (Raise IsADirectoryError, w) /\
  get_all_titles manager w = (Raise IsADirectoryError, w) /\
  get_article_info manager title w = (Raise IsADirectoryError, w) /\
  list_titles manager output_mode w = (Raise IsADirectoryError, w) /\
  get_article_details manager title output_mode w
  = (Raise IsADirectoryError, w) /\
  get_file_data manager output_mode w = (Raise IsADirectoryError, w).
Proof.
  intros Hdir. pose proof (get_file_contents_directory _ _ Hdir) as Hload.
  assert (get_all_titles manager w = (Raise IsADirectoryError, w)) as Htitles
    by (unfold get_all_titles; by rewrite (bind_raise _ _ _ _ _ Hload)).
  assert (get_article_info manager title w = (Raise IsADirectoryError, w))
    as Hinfo
    by (unfold get_article_info; by rewrite (bind_raise _ _ _ _ _ Hload)).
  repeat split; try done.
  - unfold list_titles. by rewrite (bind_raise _ _ _ _ _ Htitles).
  - unfold get_article_details. by rewrite (bind_raise _ _ _ _ _ Hinfo).
  - unfold get_file_data. by rewrite (bind_raise _ _ _ _ _ Hload).
Qed.

(** ** Titles *)

Lemma titles_of_collection (articles : list Article) :
  res_map (fun article => getitem article (lit "Title"))
    (List.map article_value articles)
  = Ok (List.map (fun a => PStr (title a)) articles).
Proof.
  induction articles as [|a articles IH]; [done|].
  change (res_map _ (List.map article_value (a :: articles)))
    with (res_bind (getitem (article_value a) (lit "Title")) (fun b =>
          res_bind (res_map (fun article => getitem article (lit "Title"))
                      (List.map article_value articles))
            (fun bs => Ok (b :: bs)))).
  by rewrite IH.
Qed.

Lemma join_values_strings (sep : str) (strings : list str) :
  join_values sep (List.map PStr strings) = Ok (join sep strings).
Proof.
  unfold join_values.
  assert (res_map (fun v => match v with PStr s => Ok s | _ => Raise TypeError end)
            (List.map PStr strings) = Ok strings) as ->; [|done].
  induction strings as [|s strings IH]; [done|]. simpl. by rewrite IH.
Qed.

(** X9. In text mode [list_titles] on a stored Article Collection returns
    the titles, in collection order and with repetitions, one per line;
    on the empty collection this is the empty string. *)
Theorem list_titles_text_of_collection
    (manager : NewsFeedManager) (w w1 : world) (articles : list Article) :
  get_file_contents manager w = (Ok (collection_value articles), w1) ->
  list_titles manager (lit "text") w
  = (Ok (PStr (join [10] (List.map title articles))), w1).
Proof.
  intros Hload. unfold list_titles.
  rewrite (bind_ok _ _ _ _ _
             (eq_trans (get_all_titles_unfold _ _ _ _ Hload)
                (f_equal (fun r => (r, w1)) (titles_of_collection articles)))).
  destruct (decide (lit "text" = lit "text")) as [_|]; [|done].
  unfold bind, lift. rewrite <- List.map_map.
  by rewrite join_values_strings.
Qed.

Lemma join_values_not_text (sep : str) (titles : list pyval) :
  Exists (fun t => forall s, t <> PStr s) titles ->
  join_values sep titles = Raise TypeError.
Proof.
  unfold join_values. intros H.
  assert (res_map (fun v => match v with PStr s => Ok s | _ => Raise TypeError end)
            titles = Raise TypeError) as ->; [|done].
  induction H as [t titles Ht | t titles _ IH]; simpl.
  - destruct t; try done. by destruct (Ht s).
  - rewrite IH. by destruct t.
Qed.

(** X10. A title that is not a string, which a feed item can carry and a
    refresh stores as it is, breaks the text mode only: on a stored list
    whose elements all have a [Title], one of them not a string,
    [list_titles] raises [TypeError] in text mode and still answers in JSON
    mode. *)
Theorem list_titles_text_needs_string_titles
    (manager : NewsFeedManager) (w w1 : world) (articles : list pyval) :
  get_file_contents manager w = (Ok (PList articles), w1) ->
  Forall has_title articles ->
  Exists title_not_text articles ->
  list_titles manager (lit "text") w = (Raise TypeError, w1) /\
  exists titles,
    get_all_titles manager w = (Ok titles, w1) /\
    list_titles manager (lit "json") w
    = (Ok (PDict [(lit "operation", PStr (lit "list_titles"));
                  (lit "titles", PList titles);
                  (lit "total_count", PInt (Z.of_nat (length articles)));
                  (lit "message",
                   PStr (lit "Found " ++ nat_repr (length articles)
                         ++ lit " articles"))]), w1).
Proof.
  intros Hload Hall Hbad.
  pose proof (get_all_titles_unfold _ _ _ _ Hload) as Htitles.
  apply titles_of_articles in Hall as [titles Hmap].
  rewrite Hmap in Htitles.
  assert (length titles = length articles) as Hlen.
  { apply res_map_Forall2 in Hmap. symmetry. by eapply Forall2_length. }
  assert (Exists (fun t => forall s, t <> PStr s) titles) as Hbad'.
  { apply res_map_Forall2 in Hmap. clear -Hmap Hbad.
    induction Hmap as [|a t articles titles Hat _ IH]; [by inversion Hbad|].
    inversion Hbad as [? ? (t' & Ht' & Hns)|? ? Hrest]; subst.
    - left. rewrite Hat in Ht'. by simplify_eq.
    - right. by apply IH. }
  split.
  - unfold list_titles. rewrite (bind_ok _ _ _ _ _ Htitles).
    destruct (decide (lit "text" = lit "text")) as [_|]; [|done].
    unfold bind, lift. by rewrite join_values_not_text.
  - exists titles. split; [done|].
    unfold list_titles. rewrite (bind_ok _ _ _ _ _ Htitles).
    destruct (decide (lit "json" = lit "text")) as [Heq|]; [done|].
    unfold ret. by rewrite Hlen.
Qed.

End QueriesMore.
End QueriesMore.

Module Details.
Import Py Json Sys NewsFeed Model Scenario Refresh Store Queries Credential
  RefreshMore QueriesMore.

Section Details.
Context {RT : Runtime}.

Lemma first_with_title_collection (t : str) (articles : list Article) :
  first_with_title (List.map article_value articles) t
  = Ok (article_value <$> first_titled t articles).
Proof.
  induction articles as [|a articles IH]; [done|].
  change (first_with_title (List.map article_value (a :: articles)) t)
    with (if bool_decide (title a = t) then Ok (Some (article_value a))
          else first_with_title (List.map article_value articles) t).
  unfold first_titled. simpl.
  destruct (bool_decide (title a = t)); [done|]. by rewrite IH.
Qed.

(** X11. [get_article_details] on a stored Article Collection answers with
    the first Article that carries the title: in text mode its four
    [field: value] lines, or the empty string when no Article matches; in
    JSON mode the Article itself under [article], or [null] with the
    message [Article not found]. *)
Theorem article_details_of_collection
    (manager : NewsFeedManager) (t : str) (w w1 : world)
    (articles : list Article) :
  get_file_contents manager w = (Ok (collection_value articles), w1) ->
  get_article_details manager t (lit "text") w
  = (Ok (PStr (from_option text_block [] (first_titled t articles))), w1) /\
  get_article_details manager t (lit "json") w
  = (Ok (PDict [(lit "operation", PStr (lit "get_article_details"));
                (lit "title", PStr t);
                (lit "article",
                 from_option article_value PNone (first_titled t articles));
                (lit "message",
                 PStr (match first_titled t articles with
                       | Some _ => lit "Article found"
                       | None => lit "Article not found"
                       end))]), w1).
Proof.
  intros Hload.
  assert (get_article_info manager t w
          = (Ok (article_value <$> first_titled t articles), w1)) as Hinfo.
  { rewrite (get_article_info_unfold _ _ _ _ _ Hload).
    by rewrite first_with_title_collection. }
  unfold get_article_details. rewrite !(bind_ok _ _ _ _ _ Hinfo).
  destruct (decide (lit "text" = lit "text")) as [_|]; [|done].
  destruct (decide (lit "json" = lit "text")) as [Heq|_]; [done|].
  destruct (first_titled t articles) as [a|]; [|done].
  split; [|done]. cbn [fmap option_fmap option_map from_option].
  change (truthy (article_value a)) with true. cbv iota.
  reflexivity.
Qed.

(** ** Files that hold something else *)

(** X12. When the file holds JSON that is no container, that is [null], a
    boolean or a number, the JSON mode of [get_file_data] raises
    [TypeError]; the text mode returns the empty string when the value is
    falsy and raises [TypeError] otherwise. *)
Theorem file_data_of_a_scalar
    (manager : NewsFeedManager) (w w1 : world) (v : pyval) :
  get_file_contents manager w = (Ok v, w1) ->
  match v with
  | PNone | PBool _ | PInt _ | PFloat _ =>
      get_file_data manager (lit "json") w = (Raise TypeError, w1) /\
      get_file_data manager (lit "text") w
      = (if truthy v then Raise TypeError else Ok (PStr []), w1)
  | _ => True
  end.
Proof.
  intros Hload. unfold get_file_data. rewrite !(bind_ok _ _ _ _ _ Hload).
  destruct (decide (lit "text" = lit "text")) as [_|]; [|done].
  destruct (decide (lit "json" = lit "text")) as [Heq|_]; [done|].
  destruct v; try done; split; try done; by destruct (truthy _).
Qed.

(** X13. On a backing file that [open] reports missing, or whose text
    [json.load] rejects with [JSONDecodeError], [get_file_data] answers with
    the empty result in both modes: the empty string in text mode, an
    envelope with no article and the count 0 in JSON mode. *)
Theorem file_data_of_a_degraded_store
    (manager : NewsFeedManager) (w : world) :
  read_file (output_file manager) w = (Raise FileNotFoundError, w) \/
  (exists content,
     read_file (output_file manager) w = (Ok content, w) /\
     loads content = Raise JSONDecodeError) ->
  exists w1,
    get_file_data manager (lit "text") w = (Ok (PStr []), w1) /\
    get_file_data manager (lit "json") w
    = (Ok (PDict [(lit "operation", PStr (lit "get_file_contents"));
                  (lit "articles", PList []);
                  (lit "total_count", PInt 0);
                  (lit "message", PStr (lit "File contains 0 articles"))]),
       w1).
Proof.
  intros H.
  assert (exists w1, get_file_contents manager w = (Ok (PList []), w1))
    as [w1 Hload].
  { rewrite get_file_contents_cases.
    destruct H as [-> | (content & -> & Hinvalid)]; simpl; [by eexists|].
    rewrite Hinvalid. by eexists. }
  exists w1. unfold get_file_data. by rewrite !(bind_ok _ _ _ _ _ Hload).
Qed.

(** ** How the operations compose *)

(** X14. Every title that [get_all_titles] lists as a string is found by
    [get_article_info]: the lookup returns an element of the collection that
    carries this title. *)
Theorem listed_titles_are_found
    (manager : NewsFeedManager) (w w1 : world) (articles titles : list pyval)
    (i : nat) (t : str) :
  get_file_contents manager w = (Ok (PList articles), w1) ->
  get_all_titles manager w = (Ok titles, w1) ->
  titles !! i = Some (PStr t) ->
  exists a,
    get_article_info manager t w = (Ok (Some a), w1) /\
    a ∈ articles /\ title_is t a.
Proof.
  intros Hload Htitles Hi.
  rewrite (get_all_titles_unfold _ _ _ _ Hload) in Htitles.
  assert (res_map (fun article => getitem article (lit "Title")) articles
          = Ok titles) as Hmap by congruence.
  assert (Forall has_title articles) as Hall
    by (apply titles_of_articles; by exists titles).
  apply res_map_Forall2 in Hmap.
  destruct (Forall2_lookup_r _ _ _ _ _ Hmap Hi) as (b & Hb & Hbt).
  rewrite (get_article_info_unfold _ _ _ _ _ Hload).
  destruct (first_with_title_spec t articles Hall)
    as [(before & a & after & -> & Ha & _ & ->) | [Hnone _]].
  - exists a. split; [done|]. split; [|done]. set_solver.
  - exfalso. rewrite Forall_lookup in Hnone. by apply (Hnone _ _ Hb).
Qed.

(** X15. Refresh, then load: when every source is fetched, the fetched
    items are Articles with text fields and the store file can be written,
    the refresh returns [true]; and where the file can then be read, in an
    interpreter with room for the two levels of the document, the queries
    that follow see exactly the fetched Articles, in the order they were
    fetched. *)
Theorem refresh_then_load
    (self : NewsFeedManager) (w w1 : world) (news : list (list pyval))
    (articles : list Article) :
  fetches self (sensors self) w news w1 ->
  concat news = List.map article_value articles ->
  forallb valid_article articles = true ->
  writable w (output_file self) = true ->
  refusal w Reading (output_file self) = None ->
  (2 <= recursion_limit)%nat ->
  exists w',
    update_news_data self w = (Ok true, w') /\
    get_file_contents self w' = (Ok (collection_value articles), w') /\
    get_all_titles self w'
    = (Ok (List.map (fun a => PStr (title a)) articles), w').
Proof.
  intros Hf Hnews Hvalid Hwrite Hread Hroom.
  pose proof (fetches_frame _ _ _ _ _ Hf) as (Hfiles & Hrefusal & _).
  assert (exists w', save self (concat news) w1 = (Ok tt, w')) as [w' Hsave].
  { eexists. apply save_ok. split; [|done].
    unfold writable in *. by rewrite Hfiles, Hrefusal. }
  exists w'.
  assert (get_file_contents self w' = (Ok (collection_value articles), w'))
    as Hload.
  { rewrite Hnews in Hsave. eapply load_after_save; [|done| |done].
    - by apply valid_articles_escapable.
    - by rewrite (save_ok_refusal _ _ _ _ Hsave), Hrefusal. }
  split; [|split; [done|]].
  - rewrite update_news_data_unfold. unfold bind at 1.
    assert (fetch_all self (sensors self) [] w = (Ok (concat news), w1)) as ->
      by (apply fetch_all_ok; by exists news).
    unfold bind. by rewrite Hsave.
  - rewrite (get_all_titles_unfold _ _ _ _ Hload).
    by rewrite titles_of_collection.
Qed.

End Details.
End Details.

Module CommandLine.
Import Py Json Sys NewsFeed Model Scenario Refresh Store Queries Credential
  RefreshMore QueriesMore Details.

Section CommandLine.
Context {RT : Runtime}.

(** X16. Every operation of the command line needs the token, the reading
    ones too: when [HA_TOKEN] is not set, [main] raises [RuntimeError]
    before it does anything, whatever the arguments; nothing is printed,
    read, written or requested. *)
Theorem main_needs_the_token (args : Namespace) (w : world) :
  environ w !! lit "HA_TOKEN" = None ->
  main args w = (Raise RuntimeError, w).
Proof.
  intros Henv. unfold main.
  apply bind_raise. by rewrite init_cases, Henv.
Qed.

(** X17. [get_article_details] without a title, not given or empty, prints
    the error object and nothing else: the store is not read, so the answer
    is the same whatever the backing file is, a directory included. *)
Theorem main_details_without_title (args : Namespace) (w : world) (token : str) :
  environ w !! lit "HA_TOKEN" = Some token ->
  arg_operation args = lit "get_article_details" ->
  arg_title args = None \/ arg_title args = Some [] ->
  main args w
  = (Ok tt,
     snd (print
            (dumps (PDict [(lit "error",
                            PStr (lit "Title parameter required for get_article_details"))]))
            w)).
Proof.
  intros Henv Hop Htitle. unfold main.
  erewrite bind_ok; [|by rewrite init_cases, Henv].
  rewrite Hop.
  destruct (decide (lit "get_article_details" = lit "update_news")); [done|].
  destruct (decide (lit "get_article_details" = lit "list_titles")); [done|].
  destruct (decide (lit "get_article_details" = lit "get_article_details"));
    [|done].
  by destruct Htitle as [-> | ->].
Qed.

(** X18. With the token set, [update_news] on the command line never
    raises: whatever the sources and the file store do, [main] prints one
    JSON envelope whose [success] is the outcome of the refresh. *)
Theorem main_update_news_prints_the_outcome
    (args : Namespace) (w : world) (token : str) :
  environ w !! lit "HA_TOKEN" = Some token ->
  arg_operation args = lit "update_news" ->
  exists (success : bool) (w' : world),
    update_news_data
      {| ha_token := token; sensors := arg_sensors args;
         output_file := arg_output_file args |} w = (Ok success, w') /\
    main args w
    = (Ok tt,
       snd (print
              (dumps
                 (PDict [(lit "operation", PStr (lit "update_news"));
                         (lit "success", PBool success);
                         (lit "message",
                          PStr (if success
                                then lit "News data updated successfully"
                                else lit "Failed to update news data"))]))
              w')).
Proof.
  intros Henv Hop.
  destruct (update_news_data_outcome
              {| ha_token := token; sensors := arg_sensors args;
                 output_file := arg_output_file args |} w)
    as (success & w' & Hrun & _).
  exists success, w'. split; [done|]. unfold main.
  erewrite bind_ok; [|by rewrite init_cases, Henv].
  rewrite Hop.
  destruct (decide (lit "update_news" = lit "update_news")); [|done].
  erewrite bind_ok; [|unfold update_news; by erewrite bind_ok].
  done.
Qed.

End CommandLine.
End CommandLine.

Module Cleaning.
Import Py News.

Lemma lstrip_length (s : str) : (length (lstrip s) <= length s)%nat.
Proof.
  induction s as [|c r IH]; simpl; [lia|].
  destruct (is_space c); simpl; lia.
Qed.

Lemma lstrip_head (c : N) (r : str) :
  lstrip (c :: r) = c :: r -> is_space c = false.
Proof.
  simpl. destruct (is_space c); [|done]. intros H.
  pose proof (lstrip_length r) as Hlen. rewrite H in Hlen. simpl in Hlen. lia.
Qed.

Lemma lstrip_keep (c : N) (r : str) :
  is_space c = false -> lstrip (c :: r) = c :: r.
Proof. intros H. simpl. by rewrite H. Qed.

Lemma lstrip_idempotent (s : str) : lstrip (lstrip s) = lstrip s.
Proof.
  induction s as [|c r IH]; [done|]. simpl.
  destruct (is_space c) eqn:E; [done|]. by apply lstrip_keep.
Qed.

Lemma lstrip_snoc (s : str) (c : N) :
  is_space c = false -> lstrip (s ++ [c]) = lstrip s ++ [c].
Proof.
  intros H. induction s as [|d s IH]; simpl.
  - by rewrite H.
  - by destruct (is_space d).
Qed.

Lemma rstrip_snoc (s : str) (c : N) :
  is_space c = false -> rstrip (s ++ [c]) = s ++ [c].
Proof.
  intros H. unfold rstrip. rewrite rev_app_distr. simpl.
  rewrite H. simpl. by rewrite rev_involutive.
Qed.

Lemma rstrip_cons (c : N) (s : str) :
  is_space c = false -> rstrip (c :: s) = c :: rstrip s.
Proof.
  intros H. unfold rstrip. simpl rev at 2.
  rewrite lstrip_snoc by done. by rewrite rev_app_distr.
Qed.

Lemma rstrip_idempotent (s : str) : rstrip (rstrip s) = rstrip s.
Proof.
  unfold rstrip. by rewrite rev_involutive, lstrip_idempotent.
Qed.

Lemma lstrip_cases (s : str) :
  lstrip s = [] \/ exists c r, lstrip s = c :: r /\ is_space c = false.
Proof.
  induction s as [|c r IH]; [by left|]. simpl.
  destruct (is_space c) eqn:E; [done|]. right. by exists c, r.
Qed.

(** [strip] is idempotent: its result has no white space at either end. *)
Lemma strip_idempotent (s : str) : strip (strip s) = strip s.
Proof.
  unfold strip.
  destruct (lstrip_cases s) as [-> | (c & r & -> & Hc)]; [done|].
  rewrite rstrip_cons by done. rewrite lstrip_keep by done.
  rewrite <- rstrip_cons by done. apply rstrip_idempotent.
Qed.

Lemma skip_letters_stop (letters : str) (c : N) (r : str) :
  forallb is_ascii_letter letters = true -> is_ascii_letter c = false ->
  skip_letters (letters ++ c :: r) = c :: r.
Proof.
  intros Hl Hc. induction letters as [|l letters IH]; simpl.
  - by rewrite Hc.
  - simpl in Hl. apply andb_true_iff in Hl as [-> Hl]. by apply IH.
Qed.

Lemma strip_between (c d : N) (x : str) :
  is_space c = false -> is_space d = false ->
  strip (c :: x ++ [d]) = c :: x ++ [d].
Proof.
  intros Hc Hd. unfold strip. rewrite lstrip_keep by done.
  change (c :: x ++ [d]) with ((c :: x) ++ [d]). by apply rstrip_snoc.
Qed.

(** X19. A reply wrapped in a fence, that is three backquotes, a language
    tag of letters (or none) and a newline before the body, a newline and
    three backquotes behind it, is cleaned to its body, for every body
    without white space at its start.  [process_ai_response] computes this
    text and returns the reply as it came, fence included. *)
Theorem fenced_reply_is_cleaned_but_returned_raw (tag body : str) :
  forallb is_ascii_letter tag = true ->
  lstrip body = body ->
  let reply := lit "```" ++ tag ++ [10] ++ body ++ [10] ++ lit "```" in
  _clean_ai_response reply = body /\
  process_ai_response reply = reply.
Proof.
  intros Htag Hbody reply. split; [|done].
  unfold _clean_ai_response.
  assert (reply = 96 :: (96 :: 96 :: tag ++ 10 :: body ++ [10; 96; 96]) ++ [96])
    as Hreply.
  { unfold reply. change (lit "```") with [96; 96; 96]. simpl.
    do 3 f_equal. by repeat (rewrite <- app_assoc; simpl). }
  assert (strip reply = reply) as ->
    by (rewrite Hreply; by apply strip_between).
  assert (drop_opening_fence reply = body ++ [10; 96; 96; 96]) as ->.
  { unfold drop_opening_fence, reply. change (lit "```") with [96; 96; 96].
    change (strip_prefix [96; 96; 96]
              ([96; 96; 96] ++ tag ++ [10] ++ body ++ [10] ++ [96; 96; 96]))
      with (Some (tag ++ 10 :: body ++ [10] ++ [96; 96; 96])).
    cbv beta iota. by rewrite skip_letters_stop. }
  destruct body as [|c body].
  - reflexivity.
  - apply lstrip_head in Hbody.
    assert ((c :: body) ++ [10; 96; 96; 96]
            = c :: (body ++ [10; 96; 96]) ++ [96]) as Hcleaned
      by (simpl; f_equal; by rewrite <- app_assoc).
    assert (strip ((c :: body) ++ [10; 96; 96; 96])
            = (c :: body) ++ [10; 96; 96; 96]) as ->
      by (rewrite Hcleaned; by apply strip_between).
    unfold drop_closing_fence.
    rewrite rev_app_distr. change (rev [10; 96; 96; 96]) with [96; 96; 96; 10].
    change (lit "```") with [96; 96; 96].
    change (strip_prefix [96; 96; 96] ([96; 96; 96; 10] ++ rev (c :: body)))
      with (Some (10 :: rev (c :: body))).
    cbv iota. change (10 =? 10) with true. cbv iota.
    apply rev_involutive.
Qed.

(** X20. A reply without a fence is only stripped: when, white space at
    both ends set aside, the reply neither starts nor ends with three
    backquotes, the cleaned text is [reply.strip()]. *)
Theorem unfenced_reply_is_stripped (reply : str) :
  strip_prefix (lit "```") (strip reply) = None ->
  strip_prefix (lit "```") (rev (strip reply)) = None ->
  _clean_ai_response reply = strip reply.
Proof.
  intros Hstart Hend. unfold _clean_ai_response.
  unfold drop_opening_fence at 1. rewrite Hstart.
  rewrite strip_idempotent.
  unfold drop_closing_fence. by rewrite Hend.
Qed.

End Cleaning.

Module MoreScenarios.
Import Py Json Sys NewsFeed News Model Scenario Refresh Store Queries
  Credential RefreshMore QueriesMore Details CommandLine Cleaning.

Lemma replaced_file_scenario :
  update_news_data manager (fresh both_up) = (Ok true, refreshed) /\
  exists news w1,
    fetches manager (sensors manager) (fresh both_up) news w1 /\
    files refreshed
    = <[output_file manager := File (dumps (PList (concat news)))]>
        (files (fresh both_up)) /\
    forall path,
      path <> output_file manager ->
      files refreshed !! path = files (fresh both_up) !! path.
Proof.
  assert (update_news_data manager (fresh both_up) = (Ok true, refreshed))
    as Hrun by (vm_compute; reflexivity).
  split; [exact Hrun|].
  exact (refresh_replaces_the_file_only manager (fresh both_up) refreshed Hrun).
Defined.

Lemma directory_scenario :
  exists w',
    update_news_data manager (blocked both_up) = (Ok false, w') /\
    files w' = files (blocked both_up).
Proof.
  apply refresh_into_a_directory_fails. vm_compute. reflexivity.
Defined.

(** Both sources up: two calls, in the order of the sensors.  The second
    source down: the same two calls.  A third source behind the one that is
    down is not called. *)
Lemma calls_scenario :
  calls refreshed
  = calls (fresh both_up)
    ++ List.map (request_for manager) (sensors manager) /\
  exists w',
    update_news_data three_sources (fresh main_down) = (Ok false, w') /\
    calls w'
    = calls (fresh main_down)
      ++ List.map (request_for three_sources) ([toronto] ++ [main_feed]).
Proof.
  split.
  - apply (proj1 (refresh_calls_stop_at_first_failure manager
                    (fresh both_up))).
    vm_compute. reflexivity.
  - eapply (proj1 (proj2 (refresh_calls_stop_at_first_failure three_sources
                            (fresh main_down))) [toronto] main_feed [toronto]).
    + reflexivity.
    + econstructor; [vm_compute; reflexivity|constructor].
    + vm_compute. reflexivity.
Defined.

(** No source: on a store that holds three Articles the refresh succeeds
    and leaves the empty collection; on a read-only store it fails. *)
Lemma no_source_scenario :
  (exists w',
     update_news_data idle_manager stocked
     = (Ok (writable stocked (output_file idle_manager)), w') /\
     calls w' = calls stocked /\
     (writable stocked (output_file idle_manager) = true ->
      files w'
      = <[output_file idle_manager := File (lit "[]")]> (files stocked))) /\
  writable stocked (output_file idle_manager) = true /\
  writable (refusing Creating PermissionError stocked)
    (output_file idle_manager) = false.
Proof.
  split; [|split; vm_compute; reflexivity].
  apply refresh_without_sources_writes_empty_collection. reflexivity.
Defined.

Lemma single_item_scenario :
  articles_of_data single_item_payload = Raise TypeError.
Proof.
  exact (item_other_than_a_list single_item_payload _ eq_refl).
Defined.

Lemma complete_items_scenario :
  exists articles,
    res_map article_of_item
      [PDict [(lit "pubDate", PStr (lit "Mon")); (lit "title", PStr (lit "A"));
              (lit "link", PStr (lit "x"))];
       PDict [(lit "link", PStr (lit "y")); (lit "pubDate", PStr (lit "Tue"));
              (lit "title", PStr (lit "B")); (lit "description", PNone)]]
    = Ok articles.
Proof.
  apply (proj2 (proj1 (items_mapped_all_or_none _))).
  repeat constructor; eexists; (split; [reflexivity|]);
    repeat split; eexists; reflexivity.
Defined.

Lemma directory_queries_scenario :
  get_file_contents manager (blocked both_up)
  = (Raise IsADirectoryError, blocked both_up) /\
  get_all_titles manager (blocked both_up)
  = (Raise IsADirectoryError, blocked both_up) /\
  get_article_info manager (lit "A") (blocked both_up)
  = (Raise IsADirectoryError, blocked both_up) /\
  list_titles manager (lit "text") (blocked both_up)
  = (Raise IsADirectoryError, blocked both_up) /\
  get_article_details manager (lit "A") (lit "text") (blocked both_up)
  = (Raise IsADirectoryError, blocked both_up) /\
  get_file_data manager (lit "text") (blocked both_up)
  = (Raise IsADirectoryError, blocked both_up).
Proof.
  apply load_error_reaches_the_caller. vm_compute. reflexivity.
Defined.

Lemma list_titles_scenario :
  list_titles manager (lit "text") stocked
  = (Ok (PStr (join [10] (List.map title [article_b; article_a; article_a']))),
     stocked).
Proof.
  apply list_titles_text_of_collection. vm_compute. reflexivity.
Defined.

Lemma numbered_titles_scenario :
  list_titles manager (lit "text") numbered = (Raise TypeError, numbered) /\
  exists titles,
    get_all_titles manager numbered = (Ok titles, numbered) /\
    list_titles manager (lit "json") numbered
    = (Ok (PDict [(lit "operation", PStr (lit "list_titles"));
                  (lit "titles", PList titles);
                  (lit "total_count",
                   PInt (Z.of_nat
                           (length [PDict [(lit "Title", PInt 5)];
                                    PDict [(lit "Title", PStr (lit "x"))]])));
                  (lit "message",
                   PStr (lit "Found "
                         ++ nat_repr
                              (length [PDict [(lit "Title", PInt 5)];
                                       PDict [(lit "Title", PStr (lit "x"))]])
                         ++ lit " articles"))]), numbered).
Proof.
  apply list_titles_text_needs_string_titles.
  - vm_compute. reflexivity.
  - repeat constructor; eexists; reflexivity.
  - left. exists (PInt 5). split; [reflexivity|]. intros s H. discriminate H.
Defined.

Lemma details_scenario :
  get_article_details manager (lit "A") (lit "text") stocked
  = (Ok (PStr (from_option text_block []
                 (first_titled (lit "A") [article_b; article_a; article_a']))),
     stocked) /\
  get_article_details manager (lit "A") (lit "json") stocked
  = (Ok (PDict [(lit "operation", PStr (lit "get_article_details"));
                (lit "title", PStr (lit "A"));
                (lit "article",
                 from_option article_value PNone
                   (first_titled (lit "A") [article_b; article_a; article_a']));
                (lit "message",
                 PStr (match first_titled (lit "A")
                               [article_b; article_a; article_a'] with
                       | Some _ => lit "Article found"
                       | None => lit "Article not found"
                       end))]), stocked).
Proof.
  apply article_details_of_collection. vm_compute. reflexivity.
Defined.

Lemma null_file_scenario :
  get_file_data manager (lit "json") nulled = (Raise TypeError, nulled) /\
  get_file_data manager (lit "text") nulled = (Ok (PStr []), nulled).
Proof.
  apply (file_data_of_a_scalar manager nulled nulled PNone).
  vm_compute. reflexivity.
Defined.

Lemma absent_file_data_scenario :
  exists w1,
    get_file_data manager (lit "text") (fresh both_up) = (Ok (PStr []), w1) /\
    get_file_data manager (lit "json") (fresh both_up)
    = (Ok (PDict [(lit "operation", PStr (lit "get_file_contents"));
                  (lit "articles", PList []);
                  (lit "total_count", PInt 0);
                  (lit "message", PStr (lit "File contains 0 articles"))]),
       w1).
Proof.
  apply file_data_of_a_degraded_store. left. vm_compute. reflexivity.
Defined.

Lemma listed_title_scenario :
  exists a,
    get_article_info manager (lit "A") stocked = (Ok (Some a), stocked) /\
    a ∈ List.map article_value [article_b; article_a; article_a'] /\
    title_is (lit "A") a.
Proof.
  eapply (listed_titles_are_found manager stocked stocked _ _ 2).
  - vm_compute. reflexivity.
  - vm_compute. reflexivity.
  - reflexivity.
Defined.

Lemma refresh_then_load_scenario :
  exists w',
    update_news_data manager (fresh both_up) = (Ok true, w') /\
    get_file_contents manager w'
    = (Ok (collection_value [article_a; article_b]), w') /\
    get_all_titles manager w'
    = (Ok (List.map (fun a => PStr (title a)) [article_a; article_b]), w').
Proof.
  eapply (refresh_then_load manager (fresh both_up)).
  - econstructor; [vm_compute; reflexivity|].
    econstructor; [vm_compute; reflexivity|constructor].
  - reflexivity.
  - reflexivity.
  - vm_compute. reflexivity.
  - reflexivity.
  - vm_compute. lia.
Defined.

Lemma tokenless_scenario :
  main (command "list_titles" None "text") tokenless
  = (Raise RuntimeError, tokenless).
Proof. apply main_needs_the_token. reflexivity. Defined.

Lemma missing_title_scenario :
  main (command "get_article_details" None "json") (blocked both_up)
  = (Ok tt,
     snd (print
            (dumps (PDict [(lit "error",
                            PStr (lit "Title parameter required for get_article_details"))]))
            (blocked both_up))).
Proof.
  eapply main_details_without_title.
  - vm_compute. reflexivity.
  - reflexivity.
  - by left.
Defined.

Lemma main_update_scenario :
  exists (success : bool) (w' : world),
    update_news_data
      {| ha_token := lit "secret";
         sensors := arg_sensors (command "update_news" None "json");
         output_file := arg_output_file (command "update_news" None "json") |}
      (fresh main_down) = (Ok success, w') /\
    main (command "update_news" None "json") (fresh main_down)
    = (Ok tt,
       snd (print
              (dumps
                 (PDict [(lit "operation", PStr (lit "update_news"));
                         (lit "success", PBool success);
                         (lit "message",
                          PStr (if success
                                then lit "News data updated successfully"
                                else lit "Failed to update news data"))]))
              w')).
Proof.
  apply main_update_news_prints_the_outcome.
  - vm_compute. reflexivity.
  - reflexivity.
Defined.

Lemma fenced_reply_scenario :
  _clean_ai_response
    (lit "```" ++ lit "json" ++ [10] ++ lit "[1, 2]" ++ [10] ++ lit "```")
  = lit "[1, 2]" /\
  process_ai_response
    (lit "```" ++ lit "json" ++ [10] ++ lit "[1, 2]" ++ [10] ++ lit "```")
  = lit "```" ++ lit "json" ++ [10] ++ lit "[1, 2]" ++ [10] ++ lit "```".
Proof.
  apply (fenced_reply_is_cleaned_but_returned_raw (lit "json") (lit "[1, 2]"));
    reflexivity.
Defined.

Lemma unfenced_reply_scenario :
  _clean_ai_response (lit "  Two headlines today. ")
  = strip (lit "  Two headlines today. ").
Proof. apply unfenced_reply_is_stripped; reflexivity. Defined.

End MoreScenarios.
